(** * Risk scoring engine of openweatherchallengeBE (app/core/risk_engine.py)

    Shallow embedding of the scoring engine.  Python values are modelled as
    follows:
    - [float] is IEEE binary64, i.e. Rocq's primitive [float] (PrimFloat);
      Python literals such as [0.3] denote the nearest double, which is what
      the Rocq float literals denote as well;
    - [int] is [Z];
    - [str] is [string] (ASCII);
    - [Optional[T]] is [option T];
    - a function that may raise returns [M A], a value or a Python exception. *)

From Stdlib Require Import Reals Psatz.
From Stdlib Require Import ZArith QArith Qround Qabs Bool List String Ascii Lia.
From Stdlib Require Import Floats.
Import ListNotations.

Set Warnings "-inexact-float".

(** ** Python runtime *)

Module Py.

Inductive exn := ValueError | OverflowError | ZeroDivisionError.

(** A computation that returns an [A] or raises. *)
Definition M (A : Type) : Type := (A + exn)%type.

Definition ret {A} (a : A) : M A := inl a.
Definition raise {A} (e : exn) : M A := inr e.
Definition bind {A B} (m : M A) (k : A -> M B) : M B :=
  match m with inl a => k a | inr e => inr e end.

Notation "x <- m ;; k" := (bind m (fun x => k))
  (at level 61, m at next level, right associativity).

(** The exact rational value of a finite binary64 number. *)
Definition pow2 (e : Z) : Q := Qpower (2 # 1) e.

Definition sf_value (x : spec_float) : option Q :=
  match x with
  | S754_zero _ => Some 0%Q
  | S754_finite s m e =>
      Some ((if s then (-1)%Q else 1%Q) * inject_Z (Zpos m) * pow2 e)%Q
  | _ => None
  end.

Definition value (x : float) : option Q := sf_value (Prim2SF x).

(** Round half to even of a rational. *)
Definition round_half_even (q : Q) : Z :=
  let f := Qfloor q in
  let r := (q - inject_Z f)%Q in
  if negb (Qle_bool r (1 # 2)) then (f + 1)%Z
  else if Qeq_bool r (1 # 2) then (if Z.even f then f else (f + 1)%Z)
  else f.

(** [float(n)] for an int [n], as CPython's [PyLong_AsDouble]: correctly
    rounded, and [OverflowError] when the rounded value leaves the double
    range, i.e. when [|n| >= 2^1024 - 2^970]. *)
Definition int_overflow_bound : Z := (2 ^ 1024 - 2 ^ 970)%Z.

Definition float_of_int (n : Z) : M float :=
  if (Z.abs n <? int_overflow_bound)%Z
  then ret (SF2Prim (binary_normalize prec emax n 0 false))
  else raise OverflowError.

(** [round(x)] without [ndigits] (float.__round__): round half to even of the
    exact value; [ValueError] on NaN and [OverflowError] on infinities. *)
Definition py_round (x : float) : M Z :=
  match value x with
  | Some q => ret (round_half_even q)
  | None => if is_nan x then raise ValueError else raise OverflowError
  end.

(** [round(x, 1)]: the exact value rounded half to even to one decimal
    (CPython goes through the correctly rounded decimal string), read back
    as the nearest double; NaN and infinities round to themselves. *)
Definition py_round1 (x : float) : float :=
  match value x with
  | Some q =>
      let n := round_half_even (q * (10 # 1))%Q in
      match n with
      | Z0 => if get_sign x then (-0)%float else 0%float
      | Zpos p => SF2Prim (SFdiv prec emax (S754_finite false p 0) (Prim2SF 10))
      | Zneg p => SF2Prim (SFdiv prec emax (S754_finite true p 0) (Prim2SF 10))
      end
  | None => x
  end.

(** [math.sqrt]: [ValueError] on a negative argument. *)
Definition py_sqrt (x : float) : M float :=
  if (x <? 0)%float then raise ValueError else ret (sqrt x).

(** [x / y] on floats: [ZeroDivisionError] when [y == 0]. *)
Definition py_div (x y : float) : M float :=
  if (y =? 0)%float then raise ZeroDivisionError else ret (x / y)%float.

(** Builtins [min(a, b)] and [max(a, b)]: the first argument unless the
    second compares strictly smaller (resp. greater). *)
Definition py_min (a b : float) : float := if (b <? a)%float then b else a.
Definition py_max (a b : float) : float := if (a <? b)%float then b else a.

(** [x or d] on a float: [d] when [x] is falsy, i.e. [x == 0]. *)
Definition py_or (x d : float) : float := if (x =? 0)%float then d else x.

(** [str.lower] on ASCII text. *)
Definition lower_ascii (c : ascii) : ascii :=
  let n := nat_of_ascii c in
  if (65 <=? n)%nat && (n <=? 90)%nat then ascii_of_nat (n + 32) else c.

Fixpoint str_lower (s : string) : string :=
  match s with
  | EmptyString => EmptyString
  | String c s' => String (lower_ascii c) (str_lower s')
  end.

(** [sep.join(l)]. *)
Fixpoint str_join (sep : string) (l : list string) : string :=
  match l with
  | [] => EmptyString
  | [x] => x
  | x :: xs => (x ++ sep ++ str_join sep xs)%string
  end.

(** [k in s] on strings: [k] occurs as a substring of [s]. *)
Fixpoint str_contains (k s : string) : bool :=
  prefix k s ||
  match s with
  | EmptyString => false
  | String _ s' => str_contains k s'
  end.

End Py.

Import Py.

(** ** Schemas (app/models/schemas.py) *)

Record Profile := mkProfile { age : option Z; conditions : list string }.

Record RawWeather := mkRawWeather
  { temperature_c : float; humidity : float; heat_index_c : float }.

Record RawAirQuality := mkRawAirQuality
  { aqi : Z; pm25 : option float; pm10 : option float; o3 : option float }.

Record RiskScore := mkRiskScore { level : string; score : Z }.

Record Scores := mkScores
  { asthma_risk : RiskScore; heat_risk : RiskScore;
    dehydration_risk : RiskScore; overall_risk : RiskScore }.

Record FactorContribution := mkFactor { factor : string; percentage : float }.

Record ContributingFactors := mkContributingFactors
  { cf_asthma : list FactorContribution; cf_heat : list FactorContribution;
    cf_dehydration : list FactorContribution }.

(** ** The engine (app/core/risk_engine.py) *)

Open Scope float_scope.

Definition compute_heat_index_c (temp_c humidity : float) : M float :=
  let T := temp_c * 9 / 5 + 32 in
  let R := humidity in
  if T <? 80 then ret ((T - 32) * 5 / 9)
  else
    let hi_f :=
      -42.379
      + 2.04901523 * T
      + 10.14333127 * R
      - 0.22475541 * T * R
      - 0.00683783 * T * T
      - 0.05481717 * R * R
      + 0.00122874 * T * T * R
      + 0.00085282 * T * R * R
      - 0.00000199 * T * T * R * R in
    hi_f <- (if (R <? 13) && ((80 <=? T) && (T <=? 112)) then
               r <- py_sqrt ((17 - abs (T - 95)) / 17) ;;
               ret (hi_f - ((13 - R) / 4) * r)
             else if (85 <? R) && ((80 <=? T) && (T <=? 87)) then
               ret (hi_f + ((R - 85) / 10) * ((87 - T) / 5))
             else ret hi_f) ;;
    ret ((hi_f - 32) * 5 / 9).

Close Scope float_scope.

(** [base_map = {1: 0, 2: 1, 3: 2, 4: 4, 5: 5}] and [dict.get]. *)
Definition base_map : list (Z * Z) := [(1, 0); (2, 1); (3, 2); (4, 4); (5, 5)]%Z.

Fixpoint dict_get (d : list (Z * Z)) (k default : Z) : Z :=
  match d with
  | [] => default
  | (k', v) :: d' => if (k' =? k)%Z then v else dict_get d' k default
  end.

Definition score_air_pollution (aqi : Z) (pm25 o3 : option float) : Z :=
  let score := dict_get base_map aqi 0 in
  let score := match pm25 with
               | Some p => if (35 <? p)%float then Z.min 5 (score + 1) else score
               | None => score
               end in
  let score := match o3 with
               | Some o => if (100 <? o)%float then Z.min 5 (score + 1) else score
               | None => score
               end in
  score.

Definition score_heat (heat_index_c : float) : Z :=
  let hi_f := (heat_index_c * 9 / 5 + 32)%float in
  if (hi_f <? 80)%float then 0
  else if (80 <=? hi_f)%float && (hi_f <? 90)%float then 2
  else if (90 <=? hi_f)%float && (hi_f <? 103)%float then 3
  else if (103 <=? hi_f)%float && (hi_f <? 125)%float then 4
  else 5.

Open Scope string_scope.

Definition level_from_score (score : Z) : string :=
  if (score <=? 1)%Z then "Low"
  else if (score =? 2)%Z then "Moderate"
  else if (score =? 3)%Z then "High"
  else "Very High".

Close Scope string_scope.

Definition compute_dehydration_risk (temperature_c humidity heat_index_c : float)
    (age : option Z) : RiskScore :=
  let s := 1%Z in
  let s := if (27 <=? heat_index_c)%float then 2%Z else s in
  let s := if (32 <=? heat_index_c)%float then 3%Z else s in
  let s := if (38 <=? heat_index_c)%float then 4%Z else s in
  let s := if (70 <=? humidity)%float && (s <? 4)%Z then (s + 1)%Z else s in
  let s := match age with
           | Some a => if (65 <=? a)%Z && (s <? 4)%Z then (s + 1)%Z else s
           | None => s
           end in
  let s := Z.max 1 (Z.min s 4) in
  mkRiskScore (level_from_score s) s.

Definition compute_overall_risk (asthma_score heat_score dehydration_score : Z)
    : M RiskScore :=
  a <- float_of_int asthma_score ;;
  h <- float_of_int heat_score ;;
  d <- float_of_int dehydration_score ;;
  let weighted := (a * 0.3 + h * 0.35 + d * 0.35)%float in
  avg_score <- py_round weighted ;;
  let avg_score := Z.max 1 (Z.min avg_score 4) in
  ret (mkRiskScore (level_from_score avg_score) avg_score).

Open Scope string_scope.

Definition resp_keywords : list string := ["asthma"; "copd"; "bronchitis"; "respiratory"].
Definition cardio_keywords : list string := ["heart"; "cardio"; "hypertension"; "cardiovascular"].

Close Scope string_scope.

(** [any(k in " ".join(lower) for k in keywords)]. *)
Definition any_keyword (keywords : list string) (lower : list string) : bool :=
  existsb (fun k => str_contains k (str_join " " lower)) keywords.

Definition combine_scores (air_score heat_score : Z)
    (temperature_c humidity heat_index_c : float) (profile : option Profile)
    : M Scores :=
  let asthma_score := air_score in
  let heat_score_final := heat_score in
  let '(at_risk, age) :=
    match profile with
    | Some p =>
        let age := age p in
        let at_risk := match age with Some a => (65 <=? a)%Z | None => false end in
        let lower := map str_lower (conditions p) in
        let at_risk := if any_keyword (resp_keywords ++ cardio_keywords) lower
                       then true else at_risk in
        (at_risk, age)
    | None => (false, None)
    end in
  let '(asthma_score, heat_score_final) :=
    if at_risk then (Z.min 5 (asthma_score + 1), Z.min 5 (heat_score_final + 1))
    else (asthma_score, heat_score_final) in
  let asthma_risk := mkRiskScore (level_from_score asthma_score) asthma_score in
  let heat_risk := mkRiskScore (level_from_score heat_score_final) heat_score_final in
  let dehydration_risk :=
    compute_dehydration_risk temperature_c humidity heat_index_c age in
  overall_risk <- compute_overall_risk (score asthma_risk) (score heat_risk)
                                      (score dehydration_risk) ;;
  ret (mkScores asthma_risk heat_risk dehydration_risk overall_risk).

Definition _clamp01 (x : float) : float := py_max 0 (py_min 1 x).

(** [total = s1 + s2 + s3 or 1.0] and the three
    [round(s / total * 100, 1)] of one dimension, in source order. *)
Definition factor_percentages (s1 s2 s3 : float) : M (float * float * float) :=
  let total := py_or (s1 + s2 + s3)%float 1 in
  p1 <- py_div s1 total ;;
  p2 <- py_div s2 total ;;
  p3 <- py_div s3 total ;;
  ret (py_round1 (p1 * 100)%float, py_round1 (p2 * 100)%float,
       py_round1 (p3 * 100)%float).

(** [profile.age and profile.age >= 65]. *)
Definition age_truthy_65 (age : option Z) : bool :=
  match age with
  | Some a => if (a =? 0)%Z then false else (65 <=? a)%Z
  | None => false
  end.

(** [raw.x or 0.0] on an optional float. *)
Definition or_zero (x : option float) : float :=
  match x with Some v => py_or v 0 | None => 0%float end.

Definition profile_asthma_signal (profile : option Profile) : float :=
  match profile with
  | Some p =>
      let has_resp := any_keyword resp_keywords (map str_lower (conditions p)) in
      if has_resp || age_truthy_65 (age p) then 1%float else 0.2%float
  | None => 0.2%float
  end.

Definition profile_heat_signal (profile : option Profile) : float :=
  match profile with
  | Some p =>
      let has_heart := any_keyword cardio_keywords (map str_lower (conditions p)) in
      if has_heart || age_truthy_65 (age p) then 1%float else 0.2%float
  | None => 0.2%float
  end.

(** [profile.age if profile and profile.age is not None else 30]. *)
Definition dehydration_age (profile : option Profile) : Z :=
  match profile with
  | Some p => match age p with Some a => a | None => 30%Z end
  | None => 30%Z
  end.

(** The three signals of the asthma dimension: PM2.5, ozone, profile. *)
Definition asthma_signals (raw_air : RawAirQuality) (profile : option Profile)
    : float * float * float :=
  let pm25 := or_zero (pm25 raw_air) in
  let o3 := or_zero (o3 raw_air) in
  let s_pm25 := _clamp01 (pm25 / 60)%float in
  let s_o3 := _clamp01 (o3 / 150)%float in
  let profile_asthma := profile_asthma_signal profile in
  (s_pm25, s_o3, profile_asthma).

(** The three signals of the heat dimension: heat index, humidity, profile. *)
Definition heat_signals (raw_weather : RawWeather) (profile : option Profile)
    : float * float * float :=
  let hi := heat_index_c raw_weather in
  let humidity := humidity raw_weather in
  let s_hi := _clamp01 ((hi - 27) / (40 - 27))%float in
  let s_hum := _clamp01 ((humidity - 40) / 50)%float in
  let profile_heat := profile_heat_signal profile in
  (s_hi, s_hum, profile_heat).

Open Scope string_scope.

Definition build_contributing_factors (raw_weather : RawWeather)
    (raw_air : RawAirQuality) (profile : option Profile) (scores : Scores)
    : M ContributingFactors :=
  (* Asthma / respiratory *)
  let '(s_pm25, s_o3, profile_asthma) := asthma_signals raw_air profile in
  pa <- factor_percentages s_pm25 s_o3 profile_asthma ;;
  let '(a1, a2, a3) := pa in
  let asthma_factors :=
    [mkFactor "PM2.5" a1; mkFactor "Ozone (O3)" a2;
     mkFactor "Profile (asthma/age)" a3] in
  (* Heat *)
  let '(s_hi, s_hum, profile_heat) := heat_signals raw_weather profile in
  ph <- factor_percentages s_hi s_hum profile_heat ;;
  let '(h1, h2, h3) := ph in
  let heat_factors :=
    [mkFactor "Heat Index" h1; mkFactor "Humidity" h2;
     mkFactor "Profile (age/heart/resp.)" h3] in
  (* Dehydration *)
  let hi := heat_index_c raw_weather in
  let humidity := humidity raw_weather in
  let age := dehydration_age profile in
  let s_hi_d := _clamp01 ((hi - 27) / (40 - 27))%float in
  let s_hum_d := _clamp01 ((humidity - 50) / 40)%float in
  fa <- float_of_int (age - 40)%Z ;;
  let s_age := _clamp01 (fa / 30)%float in
  pd <- factor_percentages s_hi_d s_hum_d s_age ;;
  let '(d1, d2, d3) := pd in
  let dehydration_factors :=
    [mkFactor "Heat Index" d1; mkFactor "Humidity" d2; mkFactor "Age (65+)" d3] in
  ret (mkContributingFactors asthma_factors heat_factors dehydration_factors).

Close Scope string_scope.

(** ** Readings of the specification, to be compared with the engine *)

(** Dehydration rule as the specification words it: the highest heat-index
    threshold crossed sets the base, then the humidity bump and the age bump
    are applied in turn against the evolving score, then the clamp. *)
Definition dehydration_thresholds : list (float * Z) := [(27%float, 2%Z); (32%float, 3%Z); (38%float, 4%Z)].

Definition dehydration_spec (humidity heat_index_c : float) (age : option Z) : Z :=
  let base := fold_left (fun s th => if (fst th <=? heat_index_c)%float then snd th else s)
                dehydration_thresholds 1%Z in
  let after_humidity := if (70 <=? humidity)%float && (base <? 4)%Z then (base + 1)%Z else base in
  let age_bump := match age with Some a => (65 <=? a)%Z | None => false end in
  let after_age := if age_bump && (after_humidity <? 4)%Z then (after_humidity + 1)%Z
                   else after_humidity in
  Z.max 1 (Z.min after_age 4).

(** Air score as the specification words it. *)
Definition air_base (aqi : Z) : Z :=
  match aqi with 1 => 0 | 2 => 1 | 3 => 2 | 4 => 4 | 5 => 5 | _ => 0 end%Z.

Definition capped_bump (b : bool) (s : Z) : Z := if b then Z.min 5 (s + 1) else s.

Definition exceeds (x : option float) (limit : float) : bool :=
  match x with Some v => (limit <? v)%float | None => false end.

Definition air_spec (aqi : Z) (pm25 o3 : option float) : Z :=
  capped_bump (exceeds o3 100) (capped_bump (exceeds pm25 35) (air_base aqi)).

(** A risk score whose level is the classification of its score. *)
Definition consistent (r : RiskScore) : Prop := level r = level_from_score (score r).

(** Overall risk as the specification words it: the exact weighted average
    [0.30 a + 0.35 h + 0.35 d], rounded half to even, clamped to [1, 4]. *)
Definition overall_spec (a h d : Z) : RiskScore :=
  let weighted := ((3 # 10) * inject_Z a + (35 # 100) * inject_Z h
                   + (35 # 100) * inject_Z d)%Q in
  let s := Z.max 1 (Z.min (round_half_even weighted) 4) in
  mkRiskScore (level_from_score s) s.

(** At-risk test as the specification words it: age at least 65, or some
    condition label, lower-cased, contains one of the keywords. *)
Definition at_risk_spec (profile : option Profile) : bool :=
  match profile with
  | None => false
  | Some p =>
      match age p with Some a => (65 <=? a)%Z | None => false end ||
      existsb (fun c => existsb (fun k => str_contains k (str_lower c))
                                (resp_keywords ++ cardio_keywords))
              (conditions p)
  end.

Definition profile_age (profile : option Profile) : option Z :=
  match profile with Some p => age p | None => None end.

(** Boolean equality of risk scores, to check finite ranges by evaluation. *)
Definition risk_eqb (r1 r2 : RiskScore) : bool :=
  String.eqb (level r1) (level r2) && (score r1 =? score r2)%Z.

Definition m_risk_eqb (m : M RiskScore) (r : RiskScore) : bool :=
  match m with inl r' => risk_eqb r' r | inr _ => false end.

(** The integers [lo, lo + n). *)
Definition zrange (lo : Z) (n : nat) : list Z :=
  map (fun i => (lo + Z.of_nat i)%Z) (seq 0 n).

(** A string without the space character. *)
Fixpoint no_space (s : string) : bool :=
  match s with
  | EmptyString => true
  | String c s' => negb (Ascii.eqb c " "%char) && no_space s'
  end.

(** Heat index as the specification words it, over doubles: Fahrenheit
    [T]; below 80 F the air temperature converted back; otherwise the
    Rothfusz regression, minus the low-humidity correction (with the
    square root taken, not raised on) or plus the high-humidity correction,
    converted back to Celsius. *)
Definition heat_index_formula (temp_c R : float) : float :=
  let T := (temp_c * 9 / 5 + 32)%float in
  if (T <? 80)%float then ((T - 32) * 5 / 9)%float
  else
    let rothfusz :=
      (-42.379 + 2.04901523 * T + 10.14333127 * R - 0.22475541 * T * R
       - 0.00683783 * T * T - 0.05481717 * R * R + 0.00122874 * T * T * R
       + 0.00085282 * T * R * R - 0.00000199 * T * T * R * R)%float in
    let hi :=
      if (R <? 13)%float && (80 <=? T)%float && (T <=? 112)%float then
        (rothfusz - ((13 - R) / 4) * sqrt ((17 - abs (T - 95)) / 17))%float
      else if (85 <? R)%float && (80 <=? T)%float && (T <=? 87)%float then
        (rothfusz + ((R - 85) / 10) * ((87 - T) / 5))%float
      else rothfusz in
    ((hi - 32) * 5 / 9)%float.

(** ** Exact-arithmetic reading of the heat index *)

(** [compute_heat_index_c] with every operation exact (real numbers), to
    separate what the formula does from binary64 round-off. *)
Open Scope R_scope.

Definition Rltb (x y : R) : bool := if Rlt_dec x y then true else false.
Definition Rleb (x y : R) : bool := if Rle_dec x y then true else false.

Definition compute_heat_index_c_exact (temp_c humidity : R) : R :=
  let T := temp_c * 9 / 5 + 32 in
  let R := humidity in
  let hi_f :=
    if Rltb T 80 then T
    else
      let hi_f :=
        -42.379
        + 2.04901523 * T
        + 10.14333127 * R
        - 0.22475541 * T * R
        - 0.00683783 * T * T
        - 0.05481717 * R * R
        + 0.00122874 * T * T * R
        + 0.00085282 * T * R * R
        - 0.00000199 * T * T * R * R in
      if Rltb R 13 && (Rleb 80 T && Rleb T 112) then
        hi_f - ((13 - R) / 4) * R_sqrt.sqrt ((17 - Rabs (T - 95)) / 17)
      else if Rltb 85 R && (Rleb 80 T && Rleb T 87) then
        hi_f + ((R - 85) / 10) * ((87 - T) / 5)
      else hi_f in
  (hi_f - 32) * 5 / 9.

Close Scope R_scope.

(** ** Exact-arithmetic reading of the factor percentages *)

(** [round(x, 1)] on an exact rational: half to even at one decimal. *)
Definition round1_exact (x : Q) : Q := (inject_Z (round_half_even (x * 10)) / 10)%Q.

(** [factor_percentages] with exact division and rounding. *)
Definition factor_percentages_exact (s1 s2 s3 : Q) : Q * Q * Q :=
  let sum := (s1 + s2 + s3)%Q in
  let total := if Qeq_bool sum 0 then 1%Q else sum in
  (round1_exact (s1 / total * 100), round1_exact (s2 / total * 100),
   round1_exact (s3 / total * 100)).

(** The exact sum of the percentages of a dimension, when all are finite. *)
Fixpoint percentages_value (l : list FactorContribution) : option Q :=
  match l with
  | [] => Some 0%Q
  | f :: l' =>
      match value (percentage f), percentages_value l' with
      | Some a, Some b => Some (a + b)%Q
      | _, _ => None
      end
  end.

(** ** Binary64 sign predicates over [spec_float] *)

Definition sf_positive (x : spec_float) : Prop :=
  match x with S754_finite false _ _ | S754_infinity false => True | _ => False end.

Definition sf_sign_or_nan (s : bool) (x : spec_float) : Prop :=
  match x with
  | S754_zero s' | S754_infinity s' | S754_finite s' _ _ => s' = s
  | S754_nan => True
  end.

Definition sf_nonneg (x : spec_float) : Prop := sf_sign_or_nan false x.

(** [0 <= x] on doubles: a zero of either sign, or a positive double. *)
Definition sf_ge0 (x : spec_float) : Prop :=
  match x with
  | S754_zero _ => True
  | S754_finite false _ _ | S754_infinity false => True
  | _ => False
  end.

(** ** The API layer (app/main.py) *)

Open Scope string_scope.

(** [score_to_rating] (defined in main.py, not called there). *)
Definition score_to_rating (score : Z) : string :=
  if (score <=? 1)%Z then "A"
  else if (score =? 2)%Z then "B"
  else if (score =? 3)%Z then "C"
  else if (score =? 4)%Z then "D"
  else "E".

(** The letter rating [health_risk] computes inline from the overall score
    (step 3 of the endpoint). *)
Definition health_risk_rating (overall_score : Z) : string :=
  let rating := "A" in
  if (overall_score =? 2)%Z then "B"
  else if (overall_score =? 3)%Z then "C"
  else if (4 <=? overall_score)%Z then "D"
  else rating.

Close Scope string_scope.

(** The scoring part of [health_risk] for the current weather, once the
    temperature, the humidity and [raw_air] are read: the heat index,
    [raw_weather], the air and heat scores, and [combine_scores] (whose
    temperature, humidity and heat index arguments are the fields of
    [raw_weather], i.e. the same three values). *)
Definition health_risk_scores (temp_c humidity : float) (raw_air : RawAirQuality)
    (profile : option Profile) : M (RawWeather * Scores) :=
  heat_index_c <- compute_heat_index_c temp_c humidity ;;
  let raw_weather := mkRawWeather temp_c humidity heat_index_c in
  let air_score := score_air_pollution (aqi raw_air) (pm25 raw_air) (o3 raw_air) in
  let heat_score_val := score_heat heat_index_c in
  scores <- combine_scores air_score heat_score_val temp_c humidity heat_index_c profile ;;
  ret (raw_weather, scores).

(** An entry of [weather_json["hourly"]]: the values of [h.get("temp")],
    [h.get("humidity")] and [h.get("dt")], [None] when missing. *)
Record HourlyEntry := mkHourly
  { h_temp : option float; h_humidity : option float; h_dt : option Z }.

(** [ForecastPoint]; its [time] is whatever [datetime.fromtimestamp(dt,
    tz=timezone.utc)] builds, a parameter [fromtimestamp] of the loop below
    that may raise. *)
Record ForecastPoint (T : Type) := mkForecastPoint
  { time : T; asthma_risk_level : string; heat_risk_level : string;
    overall_risk_score : Z }.

Arguments mkForecastPoint {T} _ _ _ _.
Arguments time {T} _.
Arguments asthma_risk_level {T} _.
Arguments heat_risk_level {T} _.
Arguments overall_risk_score {T} _.

(** The body of [for h in hourly]: an entry missing a field is skipped
    ([continue]); the others append a point, in order. *)
Fixpoint forecast_loop {T} (fromtimestamp : Z -> M T) (air_score : Z)
    (profile : option Profile) (hourly : list HourlyEntry) : M (list (ForecastPoint T)) :=
  match hourly with
  | [] => ret []
  | h :: rest =>
      match h_temp h, h_humidity h, h_dt h with
      | Some h_temp_c, Some h_hum, Some h_dt =>
          h_hi_c <- compute_heat_index_c h_temp_c h_hum ;;
          let h_heat_score := score_heat h_hi_c in
          let h_air_score := air_score in
          h_scores <- combine_scores h_air_score h_heat_score h_temp_c h_hum h_hi_c profile ;;
          t <- fromtimestamp h_dt ;;
          let point := mkForecastPoint t (level (asthma_risk h_scores))
                         (level (heat_risk h_scores)) (score (overall_risk h_scores)) in
          points <- forecast_loop fromtimestamp air_score profile rest ;;
          ret (point :: points)
      | _, _, _ => forecast_loop fromtimestamp air_score profile rest
      end
  end.

(** [forecast_points]: the loop over [weather_json.get("hourly", [])[:24]]. *)
Definition forecast_points {T} (fromtimestamp : Z -> M T) (air_score : Z)
    (profile : option Profile) (hourly : list HourlyEntry) : M (list (ForecastPoint T)) :=
  forecast_loop fromtimestamp air_score profile (firstn 24 hourly).

(** An hourly entry with its temperature, humidity and time all present. *)
Definition hourly_complete (h : HourlyEntry) : bool :=
  match h_temp h, h_humidity h, h_dt h with
  | Some _, Some _, Some _ => true
  | _, _, _ => false
  end.

(** ** Clean-up of the model's reply (app/core/llm_client.py)

    Text is a [string] read as a sequence of code points below 256 (Latin-1);
    the character classes are Python's on those code points. *)

(** [str.isspace] on one code point: 9-13, 28-32, 0x85 and 0xA0. *)
Definition is_space (c : ascii) : bool :=
  let n := nat_of_ascii c in
  ((9 <=? n)%nat && (n <=? 13)%nat) || ((28 <=? n)%nat && (n <=? 32)%nat)
  || (n =? 133)%nat || (n =? 160)%nat.

(** The line boundaries of [str.splitlines]: 10-13, 28-30 and 0x85. *)
Definition is_linebreak (c : ascii) : bool :=
  let n := nat_of_ascii c in
  ((10 <=? n)%nat && (n <=? 13)%nat) || ((28 <=? n)%nat && (n <=? 30)%nat)
  || (n =? 133)%nat.

Definition newline : string := String "010"%char EmptyString.

Fixpoint lstrip (s : string) : string :=
  match s with
  | EmptyString => EmptyString
  | String c s' => if is_space c then lstrip s' else s
  end.

Fixpoint rstrip (s : string) : string :=
  match s with
  | EmptyString => EmptyString
  | String c s' =>
      let r := rstrip s' in
      if is_space c && String.eqb r EmptyString then EmptyString else String c r
  end.

(** [str.strip()]. *)
Definition str_strip (s : string) : string := rstrip (lstrip s).

(** [str.splitlines()]: [cur] is the line being read, [None] at the start
    of a line; "\r\n" is one boundary; a final boundary opens no line. *)
Fixpoint splitlines_from (cur : option string) (s : string) : list string :=
  match s with
  | EmptyString => match cur with Some l => [l] | None => [] end
  | String c s' =>
      let line := match cur with Some l => l | None => EmptyString end in
      if is_linebreak c then
        if Ascii.eqb c "013"%char then
          match s' with
          | String c2 s'' =>
              if Ascii.eqb c2 "010"%char then line :: splitlines_from None s''
              else line :: splitlines_from None s'
          | EmptyString => [line]
          end
        else line :: splitlines_from None s'
      else splitlines_from (Some (line ++ String c EmptyString)%string) s'
  end.

Definition splitlines (s : string) : list string := splitlines_from None s.

Definition fence : string := "```".

(** [_strip_code_fences]. *)
Definition _strip_code_fences (text : string) : string :=
  if String.eqb text EmptyString then EmptyString
  else
    let stripped := str_strip text in
    if prefix fence stripped then
      let lines := splitlines stripped in
      let lines := match lines with
                   | l0 :: rest => if prefix fence l0 then rest else lines
                   | [] => lines
                   end in
      let lines := match lines with
                   | [] => lines
                   | _ => if prefix fence (last lines EmptyString) then removelast lines
                          else lines
                   end in
      str_strip (str_join newline lines)
    else stripped.

(** Every line break of [s] is "\n". *)
Definition only_newline_breaks (s : string) : bool :=
  forallb (fun c => negb (is_linebreak c) || Ascii.eqb c "010"%char) (list_ascii_of_string s).

Definition no_linebreak (s : string) : bool :=
  forallb (fun c => negb (is_linebreak c)) (list_ascii_of_string s).

(** Score order of two results, to check finite ranges by evaluation. *)
Definition m_score_le (m1 m2 : M RiskScore) : bool :=
  match m1, m2 with
  | inl r1, inl r2 => (score r1 <=? score r2)%Z
  | _, _ => false
  end.

(** The overall score [compute_overall_risk] returns, 0 when it raises. *)
Definition overall_score (a h d : Z) : Z :=
  match compute_overall_risk a h d with inl r => score r | inr _ => 0 end.

(** * Properties *)

Open Scope Z_scope.

(** ** Binary64 facts

    Rounding, sign and comparison facts about the primitive operations the
    engine uses, proved on SpecFloat, the reference semantics the primitive
    floats are specified by. *)

Module Binary64.

Lemma digits2_pos_bounds (p : positive) :
  2 ^ (Zpos (digits2_pos p) - 1) <= Zpos p < 2 ^ Zpos (digits2_pos p).
Proof.
  induction p as [p IH|p IH|]; simpl digits2_pos.
  - rewrite Pos2Z.inj_succ. rewrite (Pos2Z.inj_xI p).
    assert (E : 2 ^ Zpos (digits2_pos p) = 2 * 2 ^ (Zpos (digits2_pos p) - 1)).
    { rewrite <- Z.pow_succ_r by lia. f_equal. lia. }
    replace (Z.succ (Zpos (digits2_pos p)) - 1) with (Zpos (digits2_pos p)) by lia.
    rewrite Z.pow_succ_r by lia. lia.
  - rewrite Pos2Z.inj_succ. rewrite (Pos2Z.inj_xO p).
    assert (E : 2 ^ Zpos (digits2_pos p) = 2 * 2 ^ (Zpos (digits2_pos p) - 1)).
    { rewrite <- Z.pow_succ_r by lia. f_equal. lia. }
    replace (Z.succ (Zpos (digits2_pos p)) - 1) with (Zpos (digits2_pos p)) by lia.
    rewrite Z.pow_succ_r by lia. lia.
  - simpl. lia.
Qed.

(** The number of binary digits is determined by bounds. *)
Lemma digits2_pos_unique (p : positive) (d : Z) :
  0 < d -> 2 ^ (d - 1) <= Zpos p < 2 ^ d -> Zpos (digits2_pos p) = d.
Proof.
  intros Hd [H1 H2]. pose proof (digits2_pos_bounds p) as [B1 B2].
  set (k := Zpos (digits2_pos p)) in *.
  assert (Hk : 0 < k) by (unfold k; lia).
  destruct (Z.lt_trichotomy k d) as [Hlt|[Heq|Hgt]]; [|exact Heq|].
  - assert (2 ^ k <= 2 ^ (d - 1)) by (apply Z.pow_le_mono_r; lia). lia.
  - assert (2 ^ d <= 2 ^ (k - 1)) by (apply Z.pow_le_mono_r; lia). lia.
Qed.

Lemma iter_xO_value (p k : positive) :
  Zpos (Pos.iter xO p k) = Zpos p * 2 ^ Zpos k.
Proof.
  induction k as [|k IH] using Pos.peano_ind.
  - simpl. lia.
  - rewrite Pos.iter_succ. rewrite (Pos2Z.inj_xO (Pos.iter xO p k)), IH.
    rewrite Pos2Z.inj_succ, Z.pow_succ_r by lia. lia.
Qed.

Lemma iter_xO_digits (p k : positive) :
  Zpos (digits2_pos (Pos.iter xO p k)) = Zpos (digits2_pos p) + Zpos k.
Proof.
  induction k as [|k IH] using Pos.peano_ind.
  - simpl. rewrite Pos2Z.inj_succ. lia.
  - rewrite Pos.iter_succ. simpl digits2_pos. rewrite Pos2Z.inj_succ, IH.
    rewrite Pos2Z.inj_succ. lia.
Qed.

Lemma shr_1_div2 (r : shr_record) :
  0 <= shr_m r -> shr_m (shr_1 r) = Z.div2 (shr_m r).
Proof.
  destruct r as [m rr ss]. simpl. intros Hm.
  destruct m as [|[p|p|]|p]; try reflexivity. lia.
Qed.

Lemma iter_shr_1 (n : positive) (r : shr_record) :
  0 <= shr_m r ->
  shr_m (iter_pos shr_1 n r) = Z.shiftr (shr_m r) (Zpos n).
Proof.
  revert r. induction n as [n IH|n IH|]; intros r Hr; simpl iter_pos.
  - assert (H1 : shr_m (shr_1 r) = Z.shiftr (shr_m r) 1).
    { rewrite shr_1_div2 by exact Hr. apply Z.div2_spec. }
    assert (H1n : 0 <= shr_m (shr_1 r)) by (rewrite H1; apply Z.shiftr_nonneg; lia).
    assert (H2 : shr_m (iter_pos shr_1 n (shr_1 r)) = Z.shiftr (shr_m r) (1 + Zpos n)).
    { rewrite IH by exact H1n. rewrite H1. rewrite Z.shiftr_shiftr by lia. reflexivity. }
    assert (H2n : 0 <= shr_m (iter_pos shr_1 n (shr_1 r))) by (rewrite H2; apply Z.shiftr_nonneg; lia).
    rewrite IH by exact H2n. rewrite H2. rewrite Z.shiftr_shiftr by lia.
    f_equal. lia.
  - assert (H2 : shr_m (iter_pos shr_1 n r) = Z.shiftr (shr_m r) (Zpos n)) by (apply IH; exact Hr).
    assert (H2n : 0 <= shr_m (iter_pos shr_1 n r)) by (rewrite H2; apply Z.shiftr_nonneg; lia).
    rewrite IH by exact H2n. rewrite H2. rewrite Z.shiftr_shiftr by lia.
    f_equal. rewrite (Pos2Z.inj_xO n). lia.
  - rewrite shr_1_div2 by exact Hr. apply Z.div2_spec.
Qed.

Lemma fexp64 (e : Z) : fexp prec emax e = Z.max (e - 53) (-1074).
Proof. reflexivity. Qed.

Lemma fexp64_ge (e : Z) : -1074 <= fexp prec emax e.
Proof. rewrite fexp64. lia. Qed.

Lemma shr_m_shr (r : shr_record) (e n : Z) :
  0 <= shr_m r -> 0 <= n ->
  shr_m (fst (shr r e n)) = Z.shiftr (shr_m r) n /\ snd (shr r e n) = e + n.
Proof.
  intros Hr Hn. destruct n as [|q|q]; simpl.
  - split; [symmetry; apply Z.shiftr_0_r | lia].
  - split; [apply iter_shr_1; exact Hr | reflexivity].
  - lia.
Qed.

Lemma shr_nonpos (r : shr_record) (e n : Z) : n <= 0 -> shr r e n = (r, e).
Proof. intros Hn. destruct n as [|q|q]; [reflexivity| lia | reflexivity]. Qed.

Lemma rne_cases (m : Z) (l : location) :
  round_nearest_even m l = m \/ round_nearest_even m l = m + 1.
Proof.
  destruct l as [|[| |]]; simpl; auto.
  destruct (Z.even m); auto.
Qed.


(** Rounding a positive mantissa at an exponent of the normal or subnormal
    range never gives zero. *)
Lemma binary_round_aux_pos (m : positive) (e : Z) :
  -1074 <= e -> sf_positive (binary_round_aux prec emax false (Zpos m) e loc_Exact).
Proof.
  intros He. unfold binary_round_aux, shr_fexp. simpl Zdigits2.
  pose proof (digits2_pos_bounds m) as [Bm1 Bm2].
  set (dm := Zpos (digits2_pos m)) in *.
  assert (Hdm : 0 < dm) by (unfold dm; lia).
  destruct (Z_le_gt_dec (fexp prec emax (dm + e) - e) 0) as [Hn|Hn].
  - rewrite (shr_nonpos _ _ _ Hn). simpl.
    simpl Zdigits2. fold dm. rewrite (shr_nonpos _ _ _ Hn). simpl.
    destruct (_ <=? _); exact I.
  - rewrite fexp64 in Hn.
    assert (Hq : Z.max (dm + e - 53) (-1074) = dm + e - 53) by lia.
    rewrite fexp64, Hq.
    destruct (shr_m_shr (shr_record_of_loc (Zpos m) loc_Exact) e (dm + e - 53 - e))
      as [S1 S2]; [simpl; lia | lia |].
    destruct (shr _ e (dm + e - 53 - e)) as [mrs' e'] eqn:E1. cbn [fst snd] in S1, S2.
    replace (dm + e - 53 - e) with (dm - 53) in S1, S2 by lia.
    rewrite Z.shiftr_div_pow2 in S1 by lia.

    assert (Hpow : 2 ^ (dm - 1) = 2 ^ 52 * 2 ^ (dm - 53))
      by (rewrite <- Z.pow_add_r by lia; f_equal; lia).
    assert (Hpow' : 2 ^ dm = 2 ^ 53 * 2 ^ (dm - 53))
      by (rewrite <- Z.pow_add_r by lia; f_equal; lia).
    assert (Hp53 : 0 < 2 ^ (dm - 53)) by (apply Z.pow_pos_nonneg; lia).
    assert (Lo : 2 ^ 52 <= shr_m mrs').
    { rewrite S1. apply Z.div_le_lower_bound; [lia|]. rewrite Z.mul_comm, <- Hpow. cbn [shr_m shr_record_of_loc]. lia. }
    assert (Hi : shr_m mrs' < 2 ^ 53).
    { rewrite S1. apply Z.div_lt_upper_bound; [lia|]. rewrite Z.mul_comm, <- Hpow'. cbn [shr_m shr_record_of_loc]. lia. }
    set (r := round_nearest_even (shr_m mrs') (loc_of_shr_record mrs')).
    assert (Hr : 2 ^ 52 <= r <= 2 ^ 53) by (destruct (rne_cases (shr_m mrs') (loc_of_shr_record mrs')) as [R|R]; unfold r; rewrite R; lia).
    destruct r as [|rp|rp] eqn:Er; [lia| |lia].
    pose proof (digits2_pos_bounds rp) as [Br1 Br2].
    assert (Hdr : 53 <= Zpos (digits2_pos rp) <= 54).
    { split.
      - destruct (Z_lt_le_dec (Zpos (digits2_pos rp)) 53) as [L|L]; [|exact L].
        assert (2 ^ Zpos (digits2_pos rp) <= 2 ^ 52) by (apply Z.pow_le_mono_r; lia). lia.
      - destruct (Z_le_gt_dec (Zpos (digits2_pos rp)) 54) as [L|L]; [exact L|].
        assert (2 ^ 54 <= 2 ^ (Zpos (digits2_pos rp) - 1)) by (apply Z.pow_le_mono_r; lia). lia. }
    simpl Zdigits2. rewrite fexp64.
    assert (He' : e' = dm + e - 53) by lia.
    destruct (shr_m_shr (shr_record_of_loc (Zpos rp) loc_Exact) e'
               (Z.max (Zpos (digits2_pos rp) + e' - 53) (-1074) - e')) as [T1 T2];
      [simpl; lia | lia |].
    destruct (shr _ e' _) as [mrs'' e''] eqn:E2. cbn [fst snd] in T1, T2.
    assert (Hpos : 0 < shr_m mrs'').
    { rewrite T1. rewrite Z.shiftr_div_pow2 by lia.
      replace (Z.max (Zpos (digits2_pos rp) + e' - 53) (-1074) - e')
        with (Zpos (digits2_pos rp) - 53) by lia.
      apply Z.div_str_pos. split.
      - apply Z.pow_pos_nonneg; lia.
      - apply Z.le_trans with (2 ^ 1); [apply Z.pow_le_mono_r; lia|].
        apply Z.le_trans with (2 ^ 52); [apply Z.pow_le_mono_r; lia| cbn [shr_m shr_record_of_loc]; lia]. }
    destruct (shr_m mrs'') as [|p''|p'']; [lia| |lia].
    destruct (_ <=? _); exact I.
Qed.

Lemma binary_round_aux_noshift (s : bool) (m : positive) (e : Z) :
  fexp prec emax (Zpos (digits2_pos m) + e) - e <= 0 ->
  binary_round_aux prec emax s (Zpos m) e loc_Exact
  = if e <=? 971 then S754_finite s m e else S754_infinity s.
Proof.
  intros Hn. unfold binary_round_aux, shr_fexp. simpl Zdigits2.
  rewrite (shr_nonpos _ _ _ Hn). simpl. simpl Zdigits2.
  rewrite (shr_nonpos _ _ _ Hn). reflexivity.
Qed.

Lemma shl_align_value (mx : positive) (ex ex' : Z) :
  ex' <= ex ->
  Zpos (fst (shl_align mx ex ex')) = Zpos mx * 2 ^ (ex - ex')
  /\ snd (shl_align mx ex ex') = ex'.
Proof.
  intros H. unfold shl_align.
  destruct (ex' - ex) as [|d|d] eqn:E; simpl.
  - replace (ex - ex') with 0 by lia. rewrite Z.pow_0_r. split; lia.
  - lia.
  - rewrite iter_xO_value. replace (ex - ex') with (Zpos d) by lia. split; reflexivity.
Qed.

(** Rounding is exact for a mantissa of at most 53 bits at a normal exponent. *)
Lemma binary_round_exact (s : bool) (p : positive) (e : Z) :
  Zpos (digits2_pos p) <= 53 ->
  -1074 <= Zpos (digits2_pos p) + e - 53 <= 971 ->
  exists m, binary_round prec emax s p e
            = S754_finite s m (Zpos (digits2_pos p) + e - 53)
         /\ Zpos m = Zpos p * 2 ^ (53 - Zpos (digits2_pos p)).
Proof.
  intros Hd He. unfold binary_round. rewrite fexp64.
  set (d := Zpos (digits2_pos p)) in *.
  replace (Z.max (d + e - 53) (-1074)) with (d + e - 53) by lia.
  destruct (shl_align_value p e (d + e - 53)) as [V1 V2]; [lia|].
  destruct (shl_align p e (d + e - 53)) as [mz ez] eqn:E. cbn [fst snd] in V1, V2. subst ez.
  assert (Hdz : Zpos (digits2_pos mz) = 53).
  { apply digits2_pos_unique; [lia|].
    pose proof (digits2_pos_bounds p) as [B1 B2]. fold d in B1, B2.
    rewrite V1. replace (e - (d + e - 53)) with (53 - d) by lia.
    assert (P1 : 2 ^ (53 - 1) = 2 ^ (d - 1) * 2 ^ (53 - d))
      by (rewrite <- Z.pow_add_r by lia; f_equal; lia).
    assert (P2 : 2 ^ 53 = 2 ^ d * 2 ^ (53 - d))
      by (rewrite <- Z.pow_add_r by lia; f_equal; lia).
    assert (P3 : 0 < 2 ^ (53 - d)) by (apply Z.pow_pos_nonneg; lia).
    rewrite P1, P2. split; nia. }
  rewrite binary_round_aux_noshift.
  - destruct (Z.leb_spec (d + e - 53) 971) as [_|]; [|lia].
    exists mz. split; [reflexivity|]. rewrite V1. f_equal. f_equal. lia.
  - rewrite Hdz, fexp64. lia.
Qed.


Lemma binary_round_aux_sign (s : bool) (mx ex : Z) (lx : location) :
  sf_sign_or_nan s (binary_round_aux prec emax s mx ex lx).
Proof.
  unfold binary_round_aux.
  destruct (shr_fexp prec emax mx ex lx) as [r1 e1].
  destruct (shr_fexp prec emax _ e1 loc_Exact) as [r2 e2].
  destruct (shr_m r2); simpl; auto. destruct (_ <=? _); reflexivity.
Qed.

Lemma binary_round_sign (s : bool) (p : positive) (e : Z) :
  sf_sign_or_nan s (binary_round prec emax s p e).
Proof.
  unfold binary_round. destruct (shl_align _ _ _). apply binary_round_aux_sign.
Qed.

Lemma binary_normalize_nonneg (z e : Z) :
  0 <= z -> sf_sign_or_nan false (binary_normalize prec emax z e false).
Proof.
  intros Hz. destruct z as [|p|p]; simpl.
  - reflexivity.
  - apply binary_round_sign.
  - lia.
Qed.

Lemma SFsub_same_exp (sx sy : bool) (mx my : positive) (e : Z) :
  SFsub prec emax (S754_finite sx mx e) (S754_finite sy my e)
  = binary_normalize prec emax (cond_Zopp sx (Zpos mx) - cond_Zopp sy (Zpos my)) e false.
Proof. unfold SFsub. rewrite Z.min_id. unfold shl_align. rewrite Z.sub_diag. reflexivity. Qed.

Lemma prim_80 : Prim2SF 80 = S754_finite false 5629499534213120 (-46).
Proof. vm_compute. reflexivity. Qed.
Lemma prim_112 : Prim2SF 112 = S754_finite false 7881299347898368 (-46).
Proof. vm_compute. reflexivity. Qed.
Lemma prim_95 : Prim2SF 95 = S754_finite false 6685030696878080 (-46).
Proof. vm_compute. reflexivity. Qed.
Lemma prim_17 : Prim2SF 17 = S754_finite false 4785074604081152 (-48).
Proof. vm_compute. reflexivity. Qed.
Lemma prim_0 : Prim2SF 0 = S754_zero false.
Proof. vm_compute. reflexivity. Qed.

Lemma pcc_le (a b : positive) :
  match Pos.compare_cont Eq a b with Gt => false | _ => true end = true -> Zpos a <= Zpos b.
Proof.
  intros H. apply Pos2Z.pos_le_pos. unfold Pos.le, Pos.compare.
  destruct (Pos.compare_cont Eq a b); congruence.
Qed.

(** A double [T] with [80 <= T <= 112] is [m * 2^-46] with [m] in range. *)
Lemma float_in_80_112 (T : float) :
  (80 <=? T)%float = true -> (T <=? 112)%float = true ->
  exists m, Prim2SF T = S754_finite false m (-46)
       /\ 5629499534213120 <= Zpos m <= 7881299347898368.
Proof.
  rewrite !leb_spec, prim_80, prim_112.
  destruct (Prim2SF T) as [s|s| |s m e]; unfold SFleb, SFcompare; intros H1 H2.
  - discriminate H1.
  - destruct s; [discriminate H1 | discriminate H2].
  - discriminate H1.
  - destruct s; [discriminate H1|].
    destruct (Z.compare (-46) e) eqn:C1; [| |discriminate H1].
    + apply Z.compare_eq in C1. subst e. rewrite Z.compare_refl in H2.
      apply pcc_le in H1. apply pcc_le in H2.
      exists m. split; [reflexivity|lia].
    + rewrite Z.compare_lt_iff in C1. exfalso.
      destruct (Z.compare e (-46)) eqn:C2.
      * apply Z.compare_eq in C2. lia.
      * rewrite Z.compare_lt_iff in C2. lia.
      * discriminate H2.
Qed.

Lemma digits_le_51 (k : positive) :
  Zpos k <= 1196268651020288 -> Zpos (digits2_pos k) <= 51.
Proof.
  intros Hk. pose proof (digits2_pos_bounds k) as [B1 _].
  destruct (Z_le_gt_dec (Zpos (digits2_pos k)) 51) as [L|L]; [exact L|].
  assert (2 ^ 51 <= 2 ^ (Zpos (digits2_pos k) - 1)) by (apply Z.pow_le_mono_r; lia).
  lia.
Qed.

Lemma abs_diff_95 (m : positive) :
  5629499534213120 <= Zpos m <= 7881299347898368 ->
  let x := SFabs (binary_normalize prec emax (Zpos m - 6685030696878080) (-46) false) in
  x = S754_zero false \/
  exists q d, x = S754_finite false q (d - 99) /\ 0 < d <= 51
           /\ Zpos q <= 4785074604081152 * 2 ^ (51 - d).
Proof.
  intros Bm x. unfold x.
  assert (Key : forall (s : bool) k, Zpos k <= 1196268651020288 ->
      exists q d, SFabs (binary_round prec emax s k (-46)) = S754_finite false q (d - 99)
        /\ 0 < d <= 51 /\ Zpos q <= 4785074604081152 * 2 ^ (51 - d)).
  { intros s k Hk. pose proof (digits_le_51 k Hk) as Hd.
    destruct (binary_round_exact s k (-46)) as [q [E Q]]; [lia|lia|].
    exists q, (Zpos (digits2_pos k)). rewrite E. cbn [SFabs].
    split; [f_equal; lia|]. split; [lia|].
    rewrite Q.
    assert (P : 2 ^ (53 - Zpos (digits2_pos k)) = 4 * 2 ^ (51 - Zpos (digits2_pos k)))
      by (replace (53 - Zpos (digits2_pos k)) with (2 + (51 - Zpos (digits2_pos k))) by lia;
          rewrite Z.pow_add_r by lia; reflexivity).
    assert (P0 : 0 < 2 ^ (51 - Zpos (digits2_pos k))) by (apply Z.pow_pos_nonneg; lia).
    rewrite P. nia. }
  destruct (Zpos m - 6685030696878080) as [|k|k] eqn:E.
  - left. reflexivity.
  - right. apply Key. lia.
  - right. apply Key. lia.
Qed.


Lemma SFdiv_nonneg (x : spec_float) (my : positive) (ey : Z) :
  sf_nonneg x -> sf_nonneg (SFdiv prec emax x (S754_finite false my ey)).
Proof.
  unfold sf_nonneg. destruct x as [s|s| |s mx ex]; simpl; intros H; try subst s; auto.
  destruct (SFdiv_core_binary prec emax (Zpos mx) ex (Zpos my) ey) as [[mz ez] lz].
  apply binary_round_aux_sign.
Qed.

Lemma SFltb_nonneg_0 (x : spec_float) : sf_nonneg x -> SFltb x (S754_zero false) = false.
Proof.
  unfold sf_nonneg. destruct x as [s|s| |s mx ex]; simpl; intros H; try subst s; reflexivity.
Qed.

(** Under the guard [80 <= T <= 112] the argument of the square root of
    the low-humidity correction is never negative. *)
Lemma sqrt_arg_nonneg (T : float) :
  (80 <=? T)%float = true -> (T <=? 112)%float = true ->
  ((17 - abs (T - 95)) / 17 <? 0)%float = false.
Proof.
  intros H1 H2. destruct (float_in_80_112 T H1 H2) as [m [Hm Bm]].
  rewrite ltb_spec, div_spec, sub_spec, abs_spec, sub_spec, Hm, prim_95, prim_17, prim_0.
  rewrite SFsub_same_exp. cbn [cond_Zopp].
  apply SFltb_nonneg_0, SFdiv_nonneg.
  destruct (abs_diff_95 m Bm) as [Z0|[q [d [E [Hd Hq]]]]].
  - rewrite Z0. simpl. reflexivity.
  - rewrite E. unfold SF64sub, SFsub. cbv beta iota zeta. rewrite Z.min_r by lia.
    destruct (shl_align_value 4785074604081152 (-48) (d - 99)) as [V1 _]; [lia|].
    destruct (shl_align_value q (d - 99) (d - 99)) as [V2 _]; [lia|].
    cbn [cond_Zopp]. rewrite V1, V2.
    apply binary_normalize_nonneg.
    replace (-48 - (d - 99)) with (51 - d) by lia.
    rewrite Z.sub_diag, Z.pow_0_r. lia.
Qed.

Lemma binary_round_pos (p : positive) (e : Z) :
  -1074 <= e -> sf_positive (binary_round prec emax false p e).
Proof.
  intros He. unfold binary_round, shl_align.
  pose proof (fexp64_ge (Zpos (digits2_pos p) + e)).
  destruct (_ - e); apply binary_round_aux_pos; lia.
Qed.

Lemma valid_finite_exp (s : bool) (m : positive) (e : Z) :
  valid_binary (S754_finite s m e) = true -> -1074 <= e.
Proof.
  unfold valid_binary, SpecFloat.valid_binary, bounded, canonical_mantissa. intros H.
  apply andb_prop in H as [H _]. apply Z.eqb_eq in H.
  rewrite <- H. apply fexp64_ge.
Qed.


Lemma leb0_ge0 (x : float) : (0 <=? x)%float = true -> sf_ge0 (Prim2SF x).
Proof.
  rewrite leb_spec, prim_0. unfold SFleb, SFcompare.
  destruct (Prim2SF x) as [s|s| |s m e]; try destruct s; simpl; intros H; try exact I; discriminate H.
Qed.

Lemma ge0_leb0 (x : float) : sf_ge0 (Prim2SF x) -> (0 <=? x)%float = true.
Proof.
  rewrite leb_spec, prim_0. unfold SFleb, SFcompare.
  destruct (Prim2SF x) as [s|s| |s m e]; try destruct s; simpl; tauto.
Qed.

Lemma ltb0_pos (x : float) : (0 <? x)%float = true -> sf_positive (Prim2SF x).
Proof.
  rewrite ltb_spec, prim_0. unfold SFltb, SFcompare.
  destruct (Prim2SF x) as [s|s| |s m e]; try destruct s; simpl; intros H; try exact I; discriminate H.
Qed.

Lemma pos_ltb0 (x : float) : sf_positive (Prim2SF x) -> (0 <? x)%float = true.
Proof.
  rewrite ltb_spec, prim_0. unfold SFltb, SFcompare.
  destruct (Prim2SF x) as [s|s| |s m e]; try destruct s; simpl; tauto.
Qed.

Lemma SFadd_finite_pos (m1 m2 : positive) (e1 e2 : Z) :
  -1074 <= e1 -> -1074 <= e2 ->
  sf_positive (SFadd prec emax (S754_finite false m1 e1) (S754_finite false m2 e2)).
Proof.
  intros H1 H2. unfold SFadd. cbv beta iota zeta. cbn [cond_Zopp].
  destruct (Zpos (fst (shl_align m1 e1 (Z.min e1 e2)))
            + Zpos (fst (shl_align m2 e2 (Z.min e1 e2)))) eqn:E; try lia.
  apply binary_round_pos. lia.
Qed.

Lemma add_ge0_pos (a b : float) :
  (0 <=? a)%float = true -> (0 <? b)%float = true -> (0 <? a + b)%float = true.
Proof.
  intros Ha Hb. apply leb0_ge0 in Ha. apply ltb0_pos in Hb.
  pose proof (Prim2SF_valid a) as Va. pose proof (Prim2SF_valid b) as Vb.
  apply pos_ltb0. rewrite add_spec. unfold SF64add.
  destruct (Prim2SF a) as [sa|sa| |sa ma ea]; try destruct sa; try contradiction;
  destruct (Prim2SF b) as [sb|sb| |sb mb eb]; try destruct sb; try contradiction;
  try (simpl; auto; fail).
  apply SFadd_finite_pos; eapply valid_finite_exp; eassumption.
Qed.

Lemma pos_ge0 (x : spec_float) : sf_positive x -> sf_ge0 x.
Proof. destruct x as [s|s| |s m e]; try destruct s; simpl; auto. Qed.

Lemma add_ge0_ge0 (a b : float) :
  (0 <=? a)%float = true -> (0 <=? b)%float = true -> (0 <=? a + b)%float = true.
Proof.
  intros Ha Hb. apply leb0_ge0 in Ha. apply leb0_ge0 in Hb.
  pose proof (Prim2SF_valid a) as Va. pose proof (Prim2SF_valid b) as Vb.
  apply ge0_leb0. rewrite add_spec. unfold SF64add.
  destruct (Prim2SF a) as [sa|sa| |sa ma ea]; try destruct sa; try contradiction;
  destruct (Prim2SF b) as [sb|sb| |sb mb eb]; try destruct sb; try contradiction;
  try (simpl; auto; fail).
  apply pos_ge0, SFadd_finite_pos; eapply valid_finite_exp; eassumption.
Qed.

Lemma ltb0_eqb0 (x : float) : (0 <? x)%float = true -> (x =? 0)%float = false.
Proof.
  intros H. apply ltb0_pos in H. rewrite FloatAxioms.eqb_spec, prim_0.
  unfold SFeqb, SFcompare.
  destruct (Prim2SF x) as [s|s| |s m e]; try destruct s; simpl in *; try contradiction; reflexivity.
Qed.

Lemma ltb0_leb0 (x : float) : (0 <? x)%float = true -> (0 <=? x)%float = true.
Proof. intros H. apply ge0_leb0. apply ltb0_pos in H. destruct (Prim2SF x) as [s|s| |s m e]; try destruct s; simpl in *; auto. Qed.

End Binary64.

Import Binary64.

(** ** Dehydration *)

(** C2: [compute_dehydration_risk] starts at 1, raises the score at heat
    index 27, 32 and 38 C (highest threshold wins), applies the humidity bump
    then the age bump against the evolving score, and clamps to [1, 4];
    temperature 35, humidity 75, heat index 33, age 70 give 4, "Very High". *)
Theorem compute_dehydration_risk_rule :
  (forall temp hum hi age,
     score (compute_dehydration_risk temp hum hi age) = dehydration_spec hum hi age /\
     1 <= score (compute_dehydration_risk temp hum hi age) <= 4 /\
     consistent (compute_dehydration_risk temp hum hi age)) /\
  compute_dehydration_risk 35%float 75%float 33%float (Some 70) = mkRiskScore "Very High"%string 4.
Proof.
  split.
  - intros temp hum hi age. unfold compute_dehydration_risk, dehydration_spec, consistent.
    simpl.
    destruct (27 <=? hi)%float, (32 <=? hi)%float, (38 <=? hi)%float,
             (70 <=? hum)%float; destruct age as [a|]; simpl;
      try destruct (65 <=? a); simpl; repeat split; try reflexivity; lia.
  - vm_compute. reflexivity.
Qed.

(** ** Air pollution *)

(** C3: [score_air_pollution] is the table [{1:0, 2:1, 3:2, 4:4, 5:5}]
    (other AQI values 0), then +1 capped at 5 when PM2.5 is present and
    above 35, then independently +1 capped at 5 when O3 is present and above
    100; AQI 1 gives 0, AQI 3 gives 2, AQI 5 with PM2.5 50 and O3 150 gives 5. *)
Theorem score_air_pollution_rule :
  (forall aqi pm25 o3, score_air_pollution aqi pm25 o3 = air_spec aqi pm25 o3) /\
  score_air_pollution 1 None None = 0 /\
  score_air_pollution 3 None None = 2 /\
  score_air_pollution 5 (Some 50%float) (Some 150%float) = 5.
Proof.
  split; [|vm_compute; repeat split; reflexivity].
  intros aqi pm25 o3. unfold score_air_pollution, air_spec, capped_bump, exceeds.
  assert (Hb : dict_get base_map aqi 0 = air_base aqi).
  { unfold base_map, dict_get, air_base.
    destruct aqi as [|p|p]; try reflexivity.
    destruct p as [[[p|p|]|[p|p|]|]|[[p|p|]|[p|p|]|]|]; reflexivity. }
  rewrite Hb.
  destruct pm25 as [p|], o3 as [o|]; reflexivity.
Qed.

(** ** Levels and overall risk *)

Lemma in_zrange (lo x : Z) (n : nat) :
  lo <= x < lo + Z.of_nat n -> In x (zrange lo n).
Proof.
  intros H. unfold zrange. apply in_map_iff.
  exists (Z.to_nat (x - lo)). split.
  - rewrite Z2Nat.id; lia.
  - apply in_seq. lia.
Qed.

Lemma risk_eqb_true (r1 r2 : RiskScore) : risk_eqb r1 r2 = true -> r1 = r2.
Proof.
  destruct r1 as [l1 s1], r2 as [l2 s2]. unfold risk_eqb. simpl.
  intros H. apply andb_true_iff in H. destruct H as [H1 H2].
  apply String.eqb_eq in H1. apply Z.eqb_eq in H2. subst. reflexivity.
Qed.

Lemma m_risk_eqb_true (m : M RiskScore) (r : RiskScore) :
  m_risk_eqb m r = true -> m = inl r.
Proof.
  destruct m as [r'|e]; simpl; [|discriminate].
  intros H. apply risk_eqb_true in H. subst. reflexivity.
Qed.

Lemma overall_matches_spec_on_0_5 :
  forallb (fun a => forallb (fun h => forallb (fun d =>
     m_risk_eqb (compute_overall_risk a h d) (overall_spec a h d))
     (zrange 0 6)) (zrange 0 6)) (zrange 0 6) = true.
Proof. vm_compute. reflexivity. Qed.

(** C1 (as stated, refuted): for all integer scores the engine's overall
    risk is the exact weighted average rounded half to even and clamped.
    At asthma 0, heat 4, dehydration 6 the double sum is
    3.4999999999999996, which rounds to 3, while the exact 3.5 rounds to 4. *)
Lemma compute_overall_risk_float_rounding_counterexample :
  compute_overall_risk 0 4 6 <> inl (overall_spec 0 4 6).
Proof. intros H. vm_compute in H. discriminate H. Qed.

(** C1 (amended): for component scores in [0, 5], the range the engine
    produces, [compute_overall_risk] returns the exact weighted average
    [0.30 a + 0.35 h + 0.35 d] rounded half to even and clamped to [1, 4],
    with its level; asthma 2, heat 3, dehydration 3 give 3, "High". *)
Theorem compute_overall_risk_weighted :
  (forall a h d, 0 <= a <= 5 -> 0 <= h <= 5 -> 0 <= d <= 5 ->
     compute_overall_risk a h d = inl (overall_spec a h d)) /\
  compute_overall_risk 2 3 3 = inl (mkRiskScore "High"%string 3).
Proof.
  split; [|vm_compute; reflexivity].
  intros a h d Ha Hh Hd.
  apply m_risk_eqb_true.
  pose proof overall_matches_spec_on_0_5 as Hall.
  rewrite forallb_forall in Hall.
  specialize (Hall a (in_zrange 0 a 6 ltac:(simpl; lia))).
  rewrite forallb_forall in Hall.
  specialize (Hall h (in_zrange 0 h 6 ltac:(simpl; lia))).
  rewrite forallb_forall in Hall.
  exact (Hall d (in_zrange 0 d 6 ltac:(simpl; lia))).
Qed.

Lemma compute_overall_risk_weighted_witness :
  compute_overall_risk 5 0 0 = inl (overall_spec 5 0 0) /\
  overall_spec 5 0 0 = mkRiskScore "Moderate"%string 2.
Proof.
  split.
  - apply (proj1 compute_overall_risk_weighted); lia.
  - vm_compute. reflexivity.
Defined.

Lemma compute_overall_risk_consistent (a h d : Z) (r : RiskScore) :
  compute_overall_risk a h d = inl r -> consistent r.
Proof.
  unfold compute_overall_risk, bind, ret.
  destruct (float_of_int a); [|discriminate].
  destruct (float_of_int h); [|discriminate].
  destruct (float_of_int d); [|discriminate].
  destruct (py_round _); [|discriminate].
  intros H. injection H as <-. reflexivity.
Qed.

Lemma compute_dehydration_risk_consistent temp hum hi age :
  consistent (compute_dehydration_risk temp hum hi age).
Proof. reflexivity. Qed.

(** ** Profile sensitivity *)

Lemma prefix_app_space (k : string) :
  no_space k = true ->
  forall u y, prefix k (u ++ String " "%char y) = prefix k u.
Proof.
  induction k as [|c k IH]; intros Hk u y.
  - destruct u; reflexivity.
  - simpl in Hk. apply andb_true_iff in Hk. destruct Hk as [Hc Hk].
    destruct u as [|c' u].
    + simpl. destruct (ascii_dec c " "%char) as [->|Hne]; [discriminate|].
      reflexivity.
    + simpl. destruct (ascii_dec c c'); [|reflexivity]. apply IH. exact Hk.
Qed.

Lemma str_contains_empty (k : string) :
  k <> EmptyString -> str_contains k EmptyString = false.
Proof. destruct k; [congruence|reflexivity]. Qed.

Lemma str_contains_app_space (k : string) :
  k <> EmptyString -> no_space k = true ->
  forall u y, str_contains k (u ++ String " "%char y) = str_contains k u || str_contains k y.
Proof.
  intros Hne Hk. induction u as [|c u IH]; intros y.
  - simpl. pose proof (prefix_app_space k Hk EmptyString y) as Hp. simpl in Hp.
    rewrite Hp. destruct k; [congruence|reflexivity].
  - simpl. rewrite IH. pose proof (prefix_app_space k Hk (String c u) y) as Hp.
    simpl in Hp. rewrite Hp. rewrite orb_assoc. reflexivity.
Qed.

Lemma str_contains_join (k : string) :
  k <> EmptyString -> no_space k = true ->
  forall l, str_contains k (str_join " " l) = existsb (str_contains k) l.
Proof.
  intros Hne Hk. induction l as [|x l IH].
  - apply str_contains_empty. exact Hne.
  - destruct l as [|y l].
    + simpl. rewrite orb_false_r. reflexivity.
    + change (str_join " " (x :: y :: l)) with (x ++ String " "%char (str_join " " (y :: l)))%string.
      rewrite str_contains_app_space by assumption. rewrite IH. reflexivity.
Qed.

Lemma keywords_plain :
  forallb (fun k => negb (String.eqb k EmptyString) && no_space k)
          (resp_keywords ++ cardio_keywords) = true.
Proof. vm_compute. reflexivity. Qed.

Lemma existsb_swap {A B} (f : A -> B -> bool) (l1 : list A) (l2 : list B) :
  existsb (fun a => existsb (fun b => f a b) l2) l1 =
  existsb (fun b => existsb (fun a => f a b) l1) l2.
Proof.
  induction l1 as [|a l1 IH]; simpl.
  - induction l2; simpl; auto.
  - rewrite IH. clear IH. induction l2 as [|b l2 IH2]; simpl; [reflexivity|].
    rewrite <- IH2. destruct (f a b), (existsb (fun a0 => f a0 b) l1),
      (existsb (fun b0 => f a b0) l2), (existsb (fun b0 => existsb (fun a0 => f a0 b0) l1) l2);
      reflexivity.
Qed.

Lemma existsb_map_comp {A B} (f : B -> bool) (g : A -> B) (l : list A) :
  existsb f (map g l) = existsb (fun x => f (g x)) l.
Proof. induction l as [|x l IH]; simpl; [reflexivity|]. rewrite IH. reflexivity. Qed.

Lemma any_keyword_per_label (conds : list string) :
  any_keyword (resp_keywords ++ cardio_keywords) (map str_lower conds) =
  existsb (fun c => existsb (fun k => str_contains k (str_lower c))
                            (resp_keywords ++ cardio_keywords)) conds.
Proof.
  unfold any_keyword. rewrite existsb_swap.
  pose proof keywords_plain as Hk.
  induction (resp_keywords ++ cardio_keywords) as [|k ks IH]; [reflexivity|].
  simpl in Hk |- *. apply andb_true_iff in Hk. destruct Hk as [Hk1 Hks].
  apply andb_true_iff in Hk1. destruct Hk1 as [Hk0 Hsp].
  rewrite (str_contains_join k); [|intros E; subst; discriminate|exact Hsp].
  rewrite existsb_map_comp. rewrite IH by exact Hks. reflexivity.
Qed.

Lemma combine_scores_unfolded :
  forall air heat temp hum hi profile,
    combine_scores air heat temp hum hi profile =
    (let ar := at_risk_spec profile in
     let a := if ar then Z.min 5 (air + 1) else air in
     let h := if ar then Z.min 5 (heat + 1) else heat in
     let d := compute_dehydration_risk temp hum hi (profile_age profile) in
     o <- compute_overall_risk a h (score d) ;;
     ret (mkScores (mkRiskScore (level_from_score a) a)
                   (mkRiskScore (level_from_score h) h) d o)).
Proof.
  intros air heat temp hum hi profile.
  unfold combine_scores, at_risk_spec, profile_age.
  destruct profile as [p|]; [|reflexivity].
  rewrite any_keyword_per_label.
  destruct (existsb _ (conditions p)); simpl;
    destruct (age p) as [a|]; simpl; try destruct (65 <=? a); reflexivity.
Qed.


(** C5: [combine_scores] is at risk exactly when the profile has age at
    least 65 or a condition label that, lower-cased, contains one of the
    respiratory or cardiovascular keywords; then the asthma and heat scores
    are raised by one, capped at 5, before classification; the dehydration
    score is [compute_dehydration_risk] of temperature, humidity, heat index
    and age only, and the overall score is computed from the three component
    scores. *)
Theorem combine_scores_profile_sensitivity :
  forall air heat temp hum hi profile,
    combine_scores air heat temp hum hi profile =
    (let ar := at_risk_spec profile in
     let a := if ar then Z.min 5 (air + 1) else air in
     let h := if ar then Z.min 5 (heat + 1) else heat in
     let d := compute_dehydration_risk temp hum hi (profile_age profile) in
     o <- compute_overall_risk a h (score d) ;;
     ret (mkScores (mkRiskScore (level_from_score a) a)
                   (mkRiskScore (level_from_score h) h) d o)).
Proof. exact combine_scores_unfolded. Qed.

(** C6: [level_from_score] is total: at most 1 is "Low", 2 "Moderate",
    3 "High", at least 4 "Very High"; every risk score the engine builds
    (dehydration, overall, and the four entries of [combine_scores]) has
    the level of its score. *)
Theorem risk_levels_consistent :
  (forall s, (s <= 1 -> level_from_score s = "Low"%string) /\
             (s = 2 -> level_from_score s = "Moderate"%string) /\
             (s = 3 -> level_from_score s = "High"%string) /\
             (4 <= s -> level_from_score s = "Very High"%string)) /\
  (forall temp hum hi age, consistent (compute_dehydration_risk temp hum hi age)) /\
  (forall a h d r, compute_overall_risk a h d = inl r -> consistent r) /\
  (forall air heat temp hum hi profile s,
     combine_scores air heat temp hum hi profile = inl s ->
     consistent (asthma_risk s) /\ consistent (heat_risk s) /\
     consistent (dehydration_risk s) /\ consistent (overall_risk s)).
Proof.
  split; [|split; [|split]].
  - intros s. unfold level_from_score. repeat split; intros Hs.
    + replace (s <=? 1) with true by (symmetry; apply Z.leb_le; lia). reflexivity.
    + subst. reflexivity.
    + subst. reflexivity.
    + replace (s <=? 1) with false by (symmetry; apply Z.leb_gt; lia).
      replace (s =? 2) with false by (symmetry; apply Z.eqb_neq; lia).
      replace (s =? 3) with false by (symmetry; apply Z.eqb_neq; lia).
      reflexivity.
  - exact compute_dehydration_risk_consistent.
  - exact compute_overall_risk_consistent.
  - intros air heat temp hum hi profile s H.
    rewrite combine_scores_unfolded in H. simpl in H.
    unfold bind in H.
    destruct (compute_overall_risk _ _ _) as [o|] eqn:Ho; [|discriminate].
    injection H as <-. simpl.
    repeat split; try reflexivity.
    exact (compute_overall_risk_consistent _ _ _ _ Ho).
Qed.

Lemma risk_levels_consistent_witness :
  combine_scores 2 3 35%float 75%float 33%float None =
    inl (mkScores (mkRiskScore "Moderate"%string 2) (mkRiskScore "High"%string 3)
                  (mkRiskScore "Very High"%string 4) (mkRiskScore "High"%string 3)) /\
  consistent (overall_risk (mkScores (mkRiskScore "Moderate"%string 2) (mkRiskScore "High"%string 3)
                  (mkRiskScore "Very High"%string 4) (mkRiskScore "High"%string 3))).
Proof.
  assert (E : combine_scores 2 3 35%float 75%float 33%float None =
    inl (mkScores (mkRiskScore "Moderate"%string 2) (mkRiskScore "High"%string 3)
                  (mkRiskScore "Very High"%string 4) (mkRiskScore "High"%string 3)))
    by (vm_compute; reflexivity).
  split; [exact E|].
  exact (proj2 (proj2 (proj2 ((proj2 (proj2 (proj2 risk_levels_consistent))) _ _ _ _ _ _ _ E)))).
Defined.

(** ** Heat index *)

(** [compute_heat_index_c] never raises: it is the heat-index formula with
    the square root always taken. *)
Lemma compute_heat_index_c_formula_eq (temp_c R : float) :
  compute_heat_index_c temp_c R = inl (heat_index_formula temp_c R).
Proof.
  unfold compute_heat_index_c, heat_index_formula, bind, ret.
  cbv zeta.
  set (T := (temp_c * 9 / 5 + 32)%float).
  destruct (T <? 80)%float; [reflexivity|].
  destruct (R <? 13)%float; destruct (80 <=? T)%float eqn:E80;
    destruct (T <=? 112)%float eqn:E112; cbn [andb];
    try (unfold py_sqrt; rewrite (sqrt_arg_nonneg T E80 E112); reflexivity);
    destruct (85 <? R)%float; destruct (T <=? 87)%float; reflexivity.
Qed.

(** Below 80 F, the exact-arithmetic heat index is the air temperature. *)
Lemma compute_heat_index_c_exact_low (temp_c humidity : R) :
  (temp_c * 9 / 5 + 32 < 80)%R -> compute_heat_index_c_exact temp_c humidity = temp_c.
Proof.
  intros H. unfold compute_heat_index_c_exact, Rltb. cbv zeta.
  destruct (Rlt_dec (temp_c * 9 / 5 + 32) 80) as [_|N]; [lra | contradiction].
Qed.

(** C4 (as stated, refuted): below 80 F the result equals the input air
    temperature.  At 0.1 C (32.18 F) the engine returns
    0.09999999999999984: the Celsius-Fahrenheit-Celsius round trip is
    computed in binary64. *)
Lemma compute_heat_index_c_roundtrip_counterexample :
  (0.1 * 9 / 5 + 32 <? 80)%float = true /\
  compute_heat_index_c 0.1 50 <> inl 0.1%float.
Proof.
  split; [vm_compute; reflexivity|].
  intros H. vm_compute in H. discriminate H.
Qed.

(** C4 (amended): [compute_heat_index_c] converts to Fahrenheit [T]; it
    returns the heat-index formula in binary64: [(T - 32) * 5 / 9] when
    [T < 80], otherwise the Rothfusz regression minus the low-humidity
    correction ([R < 13], [80 <= T <= 112]) or plus the high-humidity
    correction ([R > 85], [80 <= T <= 87]), converted back to Celsius; with
    exact arithmetic the [T < 80] branch returns the input temperature, in
    binary64 only up to round-off (0.1 gives 0.09999999999999984). *)
Theorem compute_heat_index_c_rothfusz :
  (forall temp_c R, compute_heat_index_c temp_c R = inl (heat_index_formula temp_c R)) /\
  (forall temp_c humidity, (temp_c * 9 / 5 + 32 < 80)%R ->
     compute_heat_index_c_exact temp_c humidity = temp_c) /\
  compute_heat_index_c 0.1 50 = inl 0.099999999999999839%float.
Proof.
  split; [exact compute_heat_index_c_formula_eq|].
  split; [exact compute_heat_index_c_exact_low|].
  vm_compute. reflexivity.
Qed.

Lemma compute_heat_index_c_rothfusz_witness :
  (20 * 9 / 5 + 32 < 80)%R /\ compute_heat_index_c_exact 20 50 = 20%R.
Proof.
  assert (H : (20 * 9 / 5 + 32 < 80)%R) by lra.
  split; [exact H|].
  exact (proj1 (proj2 compute_heat_index_c_rothfusz) 20%R 50%R H).
Defined.

(** The humidity slope of the Rothfusz regression is positive for
    [T >= 80] and humidities summing to [26 .. 170]. *)
Lemma rothfusz_slope_pos (T S : R) :
  (80 <= T)%R -> (26 <= S <= 170)%R ->
  (0 <= 10.14333127 - 0.22475541 * T + 0.00122874 * T * T
        + (-0.05481717 + 0.00085282 * T - 0.00000199 * T * T) * S)%R.
Proof.
  intros HT HS.
  set (b := (10.14333127 - 0.22475541 * T + 0.00122874 * T * T)%R).
  set (c := (-0.05481717 + 0.00085282 * T - 0.00000199 * T * T)%R).
  assert (H26 : (0 <= b + c * 26)%R).
  { unfold b, c. assert (Q := Rle_0_sqr (T - 86.06)). unfold Rsqr in Q. nra. }
  assert (H170 : (0 <= b + c * 170)%R).
  { unfold b, c. assert (Q := Rle_0_sqr (T - 80)). unfold Rsqr in Q. nra. }
  assert (E : (b + c * S = ((170 - S) * (b + c * 26) + (S - 26) * (b + c * 170)) / 144)%R)
    by field.
  rewrite E.
  assert (P1 : (0 <= (170 - S) * (b + c * 26))%R) by (apply Rmult_le_pos; lra).
  assert (P2 : (0 <= (S - 26) * (b + c * 170))%R) by (apply Rmult_le_pos; lra).
  lra.
Qed.

(** C9 (as stated, refuted): for [T >= 80] F and humidities in [13, 85]
    the binary64 heat index is non-decreasing in humidity.  At 27 C
    (80.6 F), humidity 13 gives 25.918503311555575 and the next double
    above 13 gives 25.918503311555565: round-off breaks monotonicity. *)
Lemma compute_heat_index_c_humidity_counterexample :
  (80 <=? 27 * 9 / 5 + 32)%float = true /\
  (13 <? next_up 13)%float = true /\ (next_up 13 <=? 85)%float = true /\
  match compute_heat_index_c 27 13, compute_heat_index_c 27 (next_up 13) with
  | inl h1, inl h2 => (h2 <? h1)%float = true
  | _, _ => False
  end.
Proof. vm_compute. repeat split. Qed.

(** C9 (amended): with exact arithmetic, for a temperature of at least
    80 F and humidities [13 <= R1 <= R2 <= 85], the heat index is
    non-decreasing in humidity (no correction applies there); the binary64
    engine is so only up to round-off. *)
Theorem compute_heat_index_c_exact_monotone :
  forall temp_c R1 R2 : R,
    (80 <= temp_c * 9 / 5 + 32)%R -> (13 <= R1)%R -> (R1 <= R2)%R -> (R2 <= 85)%R ->
    (compute_heat_index_c_exact temp_c R1 <= compute_heat_index_c_exact temp_c R2)%R.
Proof.
  intros temp_c R1 R2 HT H1 H12 H2.
  unfold compute_heat_index_c_exact, Rltb, Rleb. cbv zeta.
  set (T := (temp_c * 9 / 5 + 32)%R) in *.
  destruct (Rlt_dec T 80) as [L|_]; [lra|].
  destruct (Rlt_dec R1 13) as [L|_]; [lra|].
  destruct (Rlt_dec R2 13) as [L|_]; [lra|].
  destruct (Rlt_dec 85 R1) as [L|_]; [lra|].
  destruct (Rlt_dec 85 R2) as [L|_]; [lra|].
  cbn [andb].
  pose proof (rothfusz_slope_pos T (R1 + R2) HT ltac:(lra)) as Slope.
  assert (D : (0 <= (R2 - R1) *
     (10.14333127 - 0.22475541 * T + 0.00122874 * T * T
      + (-0.05481717 + 0.00085282 * T - 0.00000199 * T * T) * (R1 + R2)))%R)
    by (apply Rmult_le_pos; lra).
  nra.
Qed.

Lemma compute_heat_index_c_exact_monotone_witness :
  (80 <= 27 * 9 / 5 + 32)%R /\
  (compute_heat_index_c_exact 27 13 <= compute_heat_index_c_exact 27 50)%R.
Proof.
  assert (H : (80 <= 27 * 9 / 5 + 32)%R) by lra.
  split; [exact H|].
  apply (compute_heat_index_c_exact_monotone 27 13 50 H); lra.
Defined.

(** ** Factor percentages *)

Lemma round_half_even_close (q : Q) :
  (q - (1 # 2) <= inject_Z (round_half_even q) <= q + (1 # 2))%Q.
Proof.
  unfold round_half_even. cbv zeta.
  pose proof (Qfloor_le q) as L. pose proof (Qlt_floor q) as U.
  rewrite inject_Z_plus in U. change (inject_Z 1) with 1%Q in U.
  set (f := Qfloor q) in *.
  destruct (Qle_bool (q - inject_Z f) (1 # 2)) eqn:B; cbn [negb].
  - apply Qle_bool_iff in B.
    destruct (Qeq_bool (q - inject_Z f) (1 # 2)) eqn:E.
    + apply Qeq_bool_iff in E.
      destruct (Z.even f); [lra|].
      rewrite inject_Z_plus. change (inject_Z 1) with 1%Q. lra.
    + lra.
  - assert (B' : ~ (q - inject_Z f <= 1 # 2)%Q)
      by (intros H; apply Qle_bool_iff in H; congruence).
    apply Qnot_le_lt in B'.
    rewrite inject_Z_plus. change (inject_Z 1) with 1%Q. lra.
Qed.

Lemma factor_percentages_exact_sum (s1 s2 s3 : Q) :
  ~ (s1 + s2 + s3 == 0)%Q ->
  let '(p1, p2, p3) := factor_percentages_exact s1 s2 s3 in
  (100 - (1 # 10) <= p1 + p2 + p3 <= 100 + (1 # 10))%Q.
Proof.
  intros NZ. unfold factor_percentages_exact. cbv zeta.
  destruct (Qeq_bool (s1 + s2 + s3) 0) eqn:E.
  { apply Qeq_bool_iff in E. contradiction. }
  unfold round1_exact.
  set (S := (s1 + s2 + s3)%Q) in *.
  set (x1 := (s1 / S * 100 * 10)%Q). set (x2 := (s2 / S * 100 * 10)%Q).
  set (x3 := (s3 / S * 100 * 10)%Q).
  assert (Sum : (x1 + x2 + x3 == 1000)%Q)
    by (unfold x1, x2, x3, S in *; field; exact NZ).
  pose proof (round_half_even_close x1) as C1.
  pose proof (round_half_even_close x2) as C2.
  pose proof (round_half_even_close x3) as C3.
  set (n1 := round_half_even x1) in *. set (n2 := round_half_even x2) in *.
  set (n3 := round_half_even x3) in *.
  assert (Lo : (999 <= n1 + n2 + n3)%Z).
  { apply Z.nlt_ge. intros H. assert (H' : (n1 + n2 + n3 <= 998)%Z) by lia.
    rewrite Zle_Qle, !inject_Z_plus in H'. change (inject_Z 998) with (998 # 1) in H'.
    lra. }
  assert (Hi : (n1 + n2 + n3 <= 1001)%Z).
  { apply Z.nlt_ge. intros H. assert (H' : (1002 <= n1 + n2 + n3)%Z) by lia.
    rewrite Zle_Qle, !inject_Z_plus in H'. change (inject_Z 1002) with (1002 # 1) in H'.
    lra. }
  rewrite Zle_Qle, !inject_Z_plus in Lo, Hi.
  change (inject_Z 999) with (999 # 1) in Lo.
  change (inject_Z 1001) with (1001 # 1) in Hi.
  assert (E3 : (inject_Z n1 / 10 + inject_Z n2 / 10 + inject_Z n3 / 10
                == (inject_Z n1 + inject_Z n2 + inject_Z n3) * (1 # 10))%Q) by field.
  rewrite E3. lra.
Qed.

Lemma eqb0_cases (x : float) : (x =? 0)%float = true -> x = 0%float \/ x = (-0)%float.
Proof.
  rewrite FloatAxioms.eqb_spec. intros H.
  rewrite <- (FloatAxioms.SF2Prim_Prim2SF x).
  change (Prim2SF 0) with (S754_zero false) in H.
  destruct (Prim2SF x) as [[|]|[|]| |[|] m e]; try discriminate H;
    [right | left]; reflexivity.
Qed.

Lemma factor_percentages_all_zero (s1 s2 s3 : float) :
  (s1 =? 0)%float = true -> (s2 =? 0)%float = true -> (s3 =? 0)%float = true ->
  match factor_percentages s1 s2 s3 with
  | inl (p1, p2, p3) => ((p1 =? 0) && (p2 =? 0) && (p3 =? 0))%float = true
  | inr _ => False
  end.
Proof.
  intros H1 H2 H3.
  destruct (eqb0_cases s1 H1) as [-> | ->]; destruct (eqb0_cases s2 H2) as [-> | ->];
    destruct (eqb0_cases s3 H3) as [-> | ->]; vm_compute; reflexivity.
Qed.

Definition sc_low : Scores :=
  mkScores (mkRiskScore "Low"%string 1) (mkRiskScore "Low"%string 1)
           (mkRiskScore "Low"%string 1) (mkRiskScore "Low"%string 1).

(** C7 (as stated, refuted): with weather (20 C, 30 %, heat index 20 C), AQI 2,
    PM2.5 12 and ozone 30 and no profile, the asthma signals are all 0.2
    (nonzero), every asthma percentage is [round(33.33.., 1)] = 33.3 as a
    double (33.29999999999999715..), and the returned percentages sum to
    99.8999999999999914..: more than 0.1 away from 100. *)
Lemma factor_percentages_sum_counterexample :
  asthma_signals (mkRawAirQuality 2 (Some 12%float) None (Some 30%float)) None
    = (0.2%float, 0.2%float, 0.2%float) /\
  match build_contributing_factors (mkRawWeather 20 30 20)
          (mkRawAirQuality 2 (Some 12%float) None (Some 30%float)) None sc_low with
  | inl cf =>
      map percentage (cf_asthma cf) = [33.3%float; 33.3%float; 33.3%float] /\
      match percentages_value (cf_asthma cf) with
      | Some q => Qle_bool (100 - q) (1 # 10) = false
      | None => False
      end
  | inr _ => False
  end.
Proof. vm_compute. repeat split. Qed.

(** C7 (amended): for each dimension, with each percentage computed as
    [round(signal / total * 100, 1)] in exact arithmetic, the percentages
    sum to 100 within 0.1 whenever the signal sum is nonzero (in particular
    when the signals are non-negative and one is nonzero); the returned
    doubles meet this only up to binary64 round-off.  When every signal of
    a dimension equals 0 the divisor 1.0 is used and, in the engine's
    binary64 arithmetic, every percentage is 0. *)
Theorem factor_percentages_sum :
  (forall s1 s2 s3 : Q,
     (0 <= s1)%Q -> (0 <= s2)%Q -> (0 <= s3)%Q ->
     ~ (s1 == 0 /\ s2 == 0 /\ s3 == 0)%Q ->
     let '(p1, p2, p3) := factor_percentages_exact s1 s2 s3 in
     (100 - (1 # 10) <= p1 + p2 + p3 <= 100 + (1 # 10))%Q) /\
  (forall s1 s2 s3 : float,
     (s1 =? 0)%float = true -> (s2 =? 0)%float = true -> (s3 =? 0)%float = true ->
     match factor_percentages s1 s2 s3 with
     | inl (p1, p2, p3) => ((p1 =? 0) && (p2 =? 0) && (p3 =? 0))%float = true
     | inr _ => False
     end).
Proof.
  split; [|exact factor_percentages_all_zero].
  intros s1 s2 s3 P1 P2 P3 NZ. apply factor_percentages_exact_sum.
  intros E. apply NZ. split; [|split]; lra.
Qed.

Lemma factor_percentages_sum_witness :
  ((0 <= 1 /\ 0 <= 1 /\ 0 <= 0)%Q /\ ~ (1 == 0 /\ 1 == 0 /\ 0 == 0)%Q) /\
  (let '(p1, p2, p3) := factor_percentages_exact 1 1 0 in
   (100 - (1 # 10) <= p1 + p2 + p3 <= 100 + (1 # 10))%Q).
Proof.
  assert (P1 : (0 <= 1)%Q) by lra. assert (P0 : (0 <= 0)%Q) by lra.
  assert (NZ : ~ (1 == 0 /\ 1 == 0 /\ 0 == 0)%Q) by (intros [H _]; lra).
  split; [split; [split; [exact P1 | split; [exact P1 | exact P0]] | exact NZ]|].
  exact (proj1 factor_percentages_sum 1%Q 1%Q 0%Q P1 P1 P0 NZ).
Defined.

(** ** Totality *)

Lemma compute_heat_index_c_total (temp_c R : float) :
  exists v, compute_heat_index_c temp_c R = inl v.
Proof. eexists. apply compute_heat_index_c_formula_eq. Qed.

Lemma compute_overall_risk_total_0_5 (a h d : Z) :
  0 <= a <= 5 -> 0 <= h <= 5 -> 0 <= d <= 5 ->
  exists r, compute_overall_risk a h d = inl r.
Proof.
  intros Ha Hh Hd. exists (overall_spec a h d).
  apply m_risk_eqb_true.
  pose proof overall_matches_spec_on_0_5 as Hall.
  rewrite forallb_forall in Hall.
  specialize (Hall a (in_zrange 0 a 6 ltac:(simpl; lia))).
  rewrite forallb_forall in Hall.
  specialize (Hall h (in_zrange 0 h 6 ltac:(simpl; lia))).
  rewrite forallb_forall in Hall.
  exact (Hall d (in_zrange 0 d 6 ltac:(simpl; lia))).
Qed.

Lemma compute_dehydration_risk_score_range temp hum hi age :
  1 <= score (compute_dehydration_risk temp hum hi age) <= 4.
Proof. unfold compute_dehydration_risk. cbv zeta. cbn [score]. lia. Qed.

Lemma combine_scores_total (air heat : Z) temp hum hi profile :
  0 <= air <= 5 -> 0 <= heat <= 5 ->
  exists s, combine_scores air heat temp hum hi profile = inl s.
Proof.
  intros Ha Hh. rewrite combine_scores_unfolded. cbv zeta.
  pose proof (compute_dehydration_risk_score_range temp hum hi (profile_age profile)) as Hd.
  destruct (compute_overall_risk_total_0_5
              (if at_risk_spec profile then Z.min 5 (air + 1) else air)
              (if at_risk_spec profile then Z.min 5 (heat + 1) else heat)
              (score (compute_dehydration_risk temp hum hi (profile_age profile))))
    as [o Ho];
    [destruct (at_risk_spec profile); lia | destruct (at_risk_spec profile); lia | lia |].
  rewrite Ho. eexists. reflexivity.
Qed.

Lemma py_or_1_nonzero (x : float) : (py_or x 1 =? 0)%float = false.
Proof. unfold py_or. destruct (x =? 0)%float eqn:E; [reflexivity | exact E]. Qed.

Lemma factor_percentages_total (s1 s2 s3 : float) :
  exists p, factor_percentages s1 s2 s3 = inl p.
Proof.
  unfold factor_percentages, py_div. cbv zeta.
  rewrite py_or_1_nonzero. eexists. reflexivity.
Qed.

Lemma build_contributing_factors_total raw_weather raw_air profile scores :
  Z.abs (dehydration_age profile - 40) < int_overflow_bound ->
  exists cf, build_contributing_factors raw_weather raw_air profile scores = inl cf.
Proof.
  intros Hage. unfold build_contributing_factors.
  destruct (asthma_signals raw_air profile) as [[a1 a2] a3].
  destruct (factor_percentages_total a1 a2 a3) as [[[p1 p2] p3] ->]. cbn [bind].
  destruct (heat_signals raw_weather profile) as [[h1 h2] h3].
  destruct (factor_percentages_total h1 h2 h3) as [[[q1 q2] q3] ->]. cbn [bind].
  unfold float_of_int. rewrite (proj2 (Z.ltb_lt _ _) Hage). cbn [bind ret].
  match goal with
  | |- context [factor_percentages ?x ?y ?z] =>
      destruct (factor_percentages_total x y z) as [[[r1 r2] r3] ->]
  end.
  eexists. reflexivity.
Qed.

(** C8 (as stated, refuted): the heat index of the finite inputs
    1e200 C and humidity 50 is NaN, not a finite value ([T * T * R * R]
    overflows to infinity and the sum of the opposite infinities is NaN). *)
Lemma compute_heat_index_c_nonfinite_counterexample :
  is_finite 1e200%float = true /\ is_finite 50%float = true /\
  match compute_heat_index_c 1e200 50 with
  | inl v => is_finite v = false
  | inr _ => False
  end.
Proof. vm_compute. repeat split. Qed.

(** C8 (amended): the engine raises for no input of its documented domain:
    [compute_heat_index_c] returns a value for all doubles, because under
    the low-humidity guard [80 <= T <= 112] the square-root argument
    [(17 - |T - 95|) / 17] is not negative; [compute_overall_risk] returns
    for component scores in [0, 5]; [combine_scores] returns for air and
    heat scores in [0, 5]; [build_contributing_factors] returns whenever
    the age it uses is within the range a double can hold (its totals are
    never 0, so no division raises).  The heat index is however not always
    finite: the finite input 1e200 C gives NaN. *)
Theorem engine_no_exceptions :
  (forall temp_c R, exists v, compute_heat_index_c temp_c R = inl v) /\
  (forall T : float, (80 <=? T)%float = true -> (T <=? 112)%float = true ->
     ((17 - abs (T - 95)) / 17 <? 0)%float = false) /\
  (forall a h d, 0 <= a <= 5 -> 0 <= h <= 5 -> 0 <= d <= 5 ->
     exists r, compute_overall_risk a h d = inl r) /\
  (forall air heat temp hum hi profile, 0 <= air <= 5 -> 0 <= heat <= 5 ->
     exists s, combine_scores air heat temp hum hi profile = inl s) /\
  (forall raw_weather raw_air profile scores,
     Z.abs (dehydration_age profile - 40) < int_overflow_bound ->
     exists cf, build_contributing_factors raw_weather raw_air profile scores = inl cf).
Proof.
  split; [exact compute_heat_index_c_total|].
  split; [exact sqrt_arg_nonneg|].
  split; [exact compute_overall_risk_total_0_5|].
  split; [exact combine_scores_total|].
  exact build_contributing_factors_total.
Qed.

Lemma engine_no_exceptions_witness :
  (80 <=? 100)%float = true /\ (100 <=? 112)%float = true /\
  ((17 - abs (100 - 95)) / 17 <? 0)%float = false /\
  (exists s, combine_scores 4 5 35%float 75%float 33%float None = inl s) /\
  (exists cf, build_contributing_factors (mkRawWeather 35 75 33)
                (mkRawAirQuality 3 None None None) None sc_low = inl cf).
Proof.
  assert (L : (80 <=? 100)%float = true) by reflexivity.
  assert (U : (100 <=? 112)%float = true) by reflexivity.
  split; [exact L|]. split; [exact U|].
  split; [exact (proj1 (proj2 engine_no_exceptions) 100%float L U)|].
  split.
  - apply (proj1 (proj2 (proj2 (proj2 engine_no_exceptions)))); lia.
  - apply (proj2 (proj2 (proj2 (proj2 engine_no_exceptions)))).
    vm_compute. reflexivity.
Defined.

(** ** Profile signals *)

Lemma clamp01_ge0 (x : float) : (0 <=? _clamp01 x)%float = true.
Proof.
  unfold _clamp01, py_max.
  destruct (0 <? py_min 1 x)%float eqn:E; [exact (ltb0_leb0 _ E) | reflexivity].
Qed.

Lemma profile_signal_cases (p : float) :
  p = 1%float \/ p = 0.2%float -> (0.2 <=? p)%float = true /\ (0 <? p)%float = true.
Proof. intros [-> | ->]; split; reflexivity. Qed.

Lemma profile_asthma_signal_cases profile :
  profile_asthma_signal profile = 1%float \/ profile_asthma_signal profile = 0.2%float.
Proof.
  unfold profile_asthma_signal. destruct profile as [p|]; [|right; reflexivity].
  destruct (_ || _); [left | right]; reflexivity.
Qed.

Lemma profile_heat_signal_cases profile :
  profile_heat_signal profile = 1%float \/ profile_heat_signal profile = 0.2%float.
Proof.
  unfold profile_heat_signal. destruct profile as [p|]; [|right; reflexivity].
  destruct (_ || _); [left | right]; reflexivity.
Qed.

Lemma signal_total_pos (s1 s2 p : float) :
  (0 <=? s1)%float = true -> (0 <=? s2)%float = true -> (0 <? p)%float = true ->
  (0 <? s1 + s2 + p)%float = true /\ py_or (s1 + s2 + p)%float 1 = (s1 + s2 + p)%float.
Proof.
  intros H1 H2 Hp.
  assert (Pos : (0 <? s1 + s2 + p)%float = true)
    by (apply add_ge0_pos; [apply add_ge0_ge0|]; assumption).
  split; [exact Pos|]. unfold py_or. rewrite (ltb0_eqb0 _ Pos). reflexivity.
Qed.

(** C10: in [build_contributing_factors] the profile signal of the asthma
    dimension and of the heat dimension is at least 0.2 (it is 0.2 or 1.0),
    the other two signals of those dimensions are [_clamp01] values, hence
    not negative, so the signal sum of each of the two dimensions is
    positive and [total or 1.0] is the sum itself: the zero-sum fallback is
    never taken there.  The dehydration dimension can take it: with
    weather (20 C, 30 %, heat index 20 C), AQI 1 and no profile, its three
    signals are 0 and its percentages are all 0, while the asthma and heat
    dimensions give their whole share to the profile signal. *)
Theorem profile_signal_total_positive :
  (forall raw_air profile,
     let '(s_pm25, s_o3, profile_asthma) := asthma_signals raw_air profile in
     (0.2 <=? profile_asthma)%float = true /\
     (0 <? s_pm25 + s_o3 + profile_asthma)%float = true /\
     py_or (s_pm25 + s_o3 + profile_asthma)%float 1
       = (s_pm25 + s_o3 + profile_asthma)%float) /\
  (forall raw_weather profile,
     let '(s_hi, s_hum, profile_heat) := heat_signals raw_weather profile in
     (0.2 <=? profile_heat)%float = true /\
     (0 <? s_hi + s_hum + profile_heat)%float = true /\
     py_or (s_hi + s_hum + profile_heat)%float 1 = (s_hi + s_hum + profile_heat)%float) /\
  match build_contributing_factors (mkRawWeather 20 30 20)
          (mkRawAirQuality 1 None None None) None sc_low with
  | inl cf =>
      map percentage (cf_dehydration cf) = [0%float; 0%float; 0%float] /\
      map percentage (cf_asthma cf) = [0%float; 0%float; 100%float] /\
      map percentage (cf_heat cf) = [0%float; 0%float; 100%float]
  | inr _ => False
  end.
Proof.
  split; [|split].
  - intros raw_air profile. unfold asthma_signals. cbv zeta.
    destruct (profile_signal_cases _ (profile_asthma_signal_cases profile)) as [L P].
    split; [exact L|]. apply signal_total_pos; [apply clamp01_ge0 | apply clamp01_ge0 | exact P].
  - intros raw_weather profile. unfold heat_signals. cbv zeta.
    destruct (profile_signal_cases _ (profile_heat_signal_cases profile)) as [L P].
    split; [exact L|]. apply signal_total_pos; [apply clamp01_ge0 | apply clamp01_ge0 | exact P].
  - vm_compute. repeat split.
Qed.

(** * Properties of the code around the claims *)

(** ** Binary64 comparisons *)

Lemma ltb_leb_float (x y : float) : (x <? y)%float = true -> (x <=? y)%float = true.
Proof.
  rewrite FloatAxioms.ltb_spec, FloatAxioms.leb_spec. unfold SFltb, SFleb.
  destruct (SFcompare _ _) as [[| |]|]; congruence.
Qed.

Lemma leb_not_ltb_cmp (x y : float) :
  (x <=? y)%float = true -> (x <? y)%float = false ->
  SFcompare (Prim2SF x) (Prim2SF y) = Some Eq.
Proof.
  rewrite FloatAxioms.ltb_spec, FloatAxioms.leb_spec. unfold SFltb, SFleb.
  destruct (SFcompare _ _) as [[| |]|]; congruence.
Qed.

Lemma pcc_eq (m p : positive) : Pos.compare_cont Eq m p = Eq -> m = p.
Proof. intros H. apply Pos.compare_eq. exact H. Qed.

(** Doubles that compare equal are equal, or are two zeros. *)
Lemma SFcompare_Eq (x y : spec_float) :
  SFcompare x y = Some Eq ->
  x = y \/ exists s s', x = S754_zero s /\ y = S754_zero s'.
Proof.
  destruct x as [s|s| |s m e], y as [s'|s'| |s' m' e'];
    try destruct s; try destruct s'; cbn; intros H; try discriminate H;
    try (left; reflexivity); try (right; eexists _, _; split; reflexivity).
  - injection H as H. destruct (Z.compare e e') eqn:C; try discriminate H.
    destruct (Pos.compare_cont Eq m m') eqn:P; try discriminate H.
    apply Z.compare_eq in C. apply pcc_eq in P. subst. left. reflexivity.
  - injection H as H. destruct (Z.compare e e') eqn:C; try discriminate H.
    apply Z.compare_eq in C. apply pcc_eq in H. subst. left. reflexivity.
Qed.

Lemma prim_eq_of_cmp (x y : float) :
  SFcompare (Prim2SF x) (Prim2SF y) = Some Eq ->
  x = y \/ exists s s', Prim2SF x = S754_zero s /\ Prim2SF y = S754_zero s'.
Proof.
  intros H. destruct (SFcompare_Eq _ _ H) as [E | Z0]; [left | right; exact Z0].
  apply FloatAxioms.Prim2SF_inj. exact E.
Qed.

Lemma zero_cases (x : float) (s : bool) :
  Prim2SF x = S754_zero s -> x = 0%float \/ x = (-0)%float.
Proof.
  intros E. rewrite <- (FloatAxioms.SF2Prim_Prim2SF x), E.
  destruct s; [right | left]; reflexivity.
Qed.

Lemma prim_nan : Prim2SF nan = S754_nan.
Proof. vm_compute. reflexivity. Qed.

(** There is one NaN. *)
Lemma is_nan_nan (x : float) : is_nan x = true -> x = nan.
Proof.
  unfold is_nan. rewrite FloatAxioms.eqb_spec. intros H.
  apply FloatAxioms.Prim2SF_inj. rewrite prim_nan.
  destruct (Prim2SF x) as [s|s| |s m e]; try destruct s; cbn in H;
    try discriminate H; try reflexivity;
    rewrite Z.compare_refl, Pos.compare_cont_refl in H; discriminate H.
Qed.

(** ** [_clamp01] *)

Lemma clamp01_range (x : float) :
  (0 <=? _clamp01 x)%float = true /\ (_clamp01 x <=? 1)%float = true.
Proof.
  unfold _clamp01, py_max, py_min.
  destruct (x <? 1)%float eqn:E1.
  - destruct (0 <? x)%float eqn:E0.
    + split; apply ltb_leb_float; assumption.
    + split; reflexivity.
  - split; reflexivity.
Qed.

Lemma clamp01_id (x : float) :
  (0 <=? x)%float = true -> (x <=? 1)%float = true -> x <> (-0)%float ->
  _clamp01 x = x.
Proof.
  intros L U NZ. unfold _clamp01, py_max, py_min.
  destruct (x <? 1)%float eqn:E1.
  - destruct (0 <? x)%float eqn:E0; [reflexivity|].
    destruct (prim_eq_of_cmp _ _ (leb_not_ltb_cmp _ _ L E0)) as [E | [s [s' [_ Ex]]]].
    + exact E.
    + destruct (zero_cases x s' Ex) as [-> | ->]; [reflexivity | contradiction].
  - destruct (prim_eq_of_cmp _ _ (leb_not_ltb_cmp _ _ U E1)) as [-> | [s [s' [_ E]]]].
    + reflexivity.
    + vm_compute in E. discriminate E.
Qed.

Lemma clamp01_nan (x : float) : is_nan x = true -> _clamp01 x = 1%float.
Proof. intros H. rewrite (is_nan_nan x H). vm_compute. reflexivity. Qed.

(** X1: [_clamp01] returns a double in [0, 1] for every input; it returns
    its argument for every [0 <= x <= 1] other than -0.0 (which becomes
    0.0); and it returns 1.0 for NaN, since [min(1.0, nan)] is 1.0. *)
Theorem clamp01_spec :
  (forall x, (0 <=? _clamp01 x)%float = true /\ (_clamp01 x <=? 1)%float = true) /\
  (forall x, (0 <=? x)%float = true -> (x <=? 1)%float = true -> x <> (-0)%float ->
     _clamp01 x = x) /\
  (forall x, is_nan x = true -> _clamp01 x = 1%float) /\
  _clamp01 (-0)%float = 0%float.
Proof.
  split; [exact clamp01_range|]. split; [exact clamp01_id|].
  split; [exact clamp01_nan | vm_compute; reflexivity].
Qed.

Lemma clamp01_spec_witness :
  ((0 <=? 0.5)%float = true /\ (0.5 <=? 1)%float = true /\ 0.5%float <> (-0)%float) /\
  _clamp01 0.5 = 0.5%float /\ is_nan nan = true /\ _clamp01 nan = 1%float.
Proof.
  assert (L : (0 <=? 0.5)%float = true) by reflexivity.
  assert (U : (0.5 <=? 1)%float = true) by reflexivity.
  assert (N : 0.5%float <> (-0)%float) by (intros H; vm_compute in H; discriminate H).
  assert (Hn : is_nan nan = true) by reflexivity.
  split; [split; [exact L | split; [exact U | exact N]]|].
  split; [exact (proj1 (proj2 clamp01_spec) 0.5%float L U N)|].
  split; [exact Hn | exact (proj1 (proj2 (proj2 clamp01_spec)) nan Hn)].
Defined.

(** ** [score_heat] *)

Lemma score_heat_values (x : float) : In (score_heat x) [0; 2; 3; 4; 5].
Proof.
  unfold score_heat. cbv zeta.
  repeat match goal with |- context [if ?b then _ else _] => destruct b end;
    simpl; tauto.
Qed.

Lemma score_heat_range (x : float) : 0 <= score_heat x <= 5.
Proof. pose proof (score_heat_values x) as H. simpl in H. intuition lia. Qed.

(** X2: [score_heat] only returns 0, 2, 3, 4 or 5, never 1; a NaN heat
    index fails every threshold test and gets the top score 5. *)
Theorem score_heat_values_nan :
  (forall x, In (score_heat x) [0; 2; 3; 4; 5]) /\
  (forall x, is_nan x = true -> score_heat x = 5).
Proof.
  split; [exact score_heat_values|].
  intros x H. rewrite (is_nan_nan x H). vm_compute. reflexivity.
Qed.

Lemma score_heat_values_nan_witness : is_nan nan = true /\ score_heat nan = 5.
Proof.
  assert (Hn : is_nan nan = true) by reflexivity.
  split; [exact Hn | exact (proj2 score_heat_values_nan nan Hn)].
Defined.

(** ** Monotonicity of the overall score *)

Lemma overall_step_check :
  forallb (fun a => forallb (fun h => forallb (fun d =>
    implb (a <? 5) (m_score_le (compute_overall_risk a h d) (compute_overall_risk (a + 1) h d))
    && implb (h <? 5) (m_score_le (compute_overall_risk a h d) (compute_overall_risk a (h + 1) d))
    && implb (d <? 5) (m_score_le (compute_overall_risk a h d) (compute_overall_risk a h (d + 1))))
  (zrange 0 6)) (zrange 0 6)) (zrange 0 6) = true.
Proof. vm_compute. reflexivity. Qed.

Lemma overall_step (a h d : Z) :
  0 <= a <= 5 -> 0 <= h <= 5 -> 0 <= d <= 5 ->
  (a < 5 -> overall_score a h d <= overall_score (a + 1) h d) /\
  (h < 5 -> overall_score a h d <= overall_score a (h + 1) d) /\
  (d < 5 -> overall_score a h d <= overall_score a h (d + 1)).
Proof.
  intros Ha Hh Hd.
  pose proof overall_step_check as Hall.
  rewrite forallb_forall in Hall.
  specialize (Hall a (in_zrange 0 a 6 ltac:(simpl; lia))).
  rewrite forallb_forall in Hall.
  specialize (Hall h (in_zrange 0 h 6 ltac:(simpl; lia))).
  rewrite forallb_forall in Hall.
  specialize (Hall d (in_zrange 0 d 6 ltac:(simpl; lia))).
  apply andb_prop in Hall as [Hall Sd]. apply andb_prop in Hall as [Sa Sh].
  unfold overall_score.
  split; [|split]; intros Lt.
  - replace (a <? 5) with true in Sa by (symmetry; apply Z.ltb_lt; lia).
    cbn [implb] in Sa. unfold m_score_le in Sa.
    destruct (compute_overall_risk a h d), (compute_overall_risk (a + 1) h d);
      try discriminate Sa. apply Z.leb_le. exact Sa.
  - replace (h <? 5) with true in Sh by (symmetry; apply Z.ltb_lt; lia).
    cbn [implb] in Sh. unfold m_score_le in Sh.
    destruct (compute_overall_risk a h d), (compute_overall_risk a (h + 1) d);
      try discriminate Sh. apply Z.leb_le. exact Sh.
  - replace (d <? 5) with true in Sd by (symmetry; apply Z.ltb_lt; lia).
    cbn [implb] in Sd. unfold m_score_le in Sd.
    destruct (compute_overall_risk a h d), (compute_overall_risk a h (d + 1));
      try discriminate Sd. apply Z.leb_le. exact Sd.
Qed.

Lemma chain_le (f : Z -> Z) (lo hi : Z) :
  (forall x, lo <= x < hi -> f x <= f (x + 1)) ->
  forall x y, lo <= x -> x <= y -> y <= hi -> f x <= f y.
Proof.
  intros Step x y Lx Lxy Ly.
  assert (G : forall n : nat, x + Z.of_nat n <= hi -> f x <= f (x + Z.of_nat n)).
  { induction n as [|n IH]; intros Hn.
    - rewrite Z.add_0_r. lia.
    - rewrite Nat2Z.inj_succ in *.
      replace (x + Z.succ (Z.of_nat n)) with (x + Z.of_nat n + 1) in * by lia.
      specialize (IH ltac:(lia)). specialize (Step (x + Z.of_nat n) ltac:(lia)). lia. }
  replace y with (x + Z.of_nat (Z.to_nat (y - x))) by lia.
  apply G. lia.
Qed.

Lemma overall_score_monotone (a h d a' h' d' : Z) :
  0 <= a -> a <= a' -> a' <= 5 -> 0 <= h -> h <= h' -> h' <= 5 ->
  0 <= d -> d <= d' -> d' <= 5 ->
  overall_score a h d <= overall_score a' h' d'.
Proof.
  intros. transitivity (overall_score a' h d); [|transitivity (overall_score a' h' d)].
  - apply (chain_le (fun x => overall_score x h d) 0 5); try lia.
    intros x Hx. apply (overall_step x h d); lia.
  - apply (chain_le (fun y => overall_score a' y d) 0 5); try lia.
    intros y Hy. apply (overall_step a' y d); lia.
  - apply (chain_le (fun z => overall_score a' h' z) 0 5); try lia.
    intros z Hz. apply (overall_step a' h' z); lia.
Qed.

Lemma compute_overall_risk_monotone_0_5 (a h d a' h' d' : Z) :
  0 <= a -> a <= a' -> a' <= 5 -> 0 <= h -> h <= h' -> h' <= 5 ->
  0 <= d -> d <= d' -> d' <= 5 ->
  match compute_overall_risk a h d, compute_overall_risk a' h' d' with
  | inl r, inl r' => score r <= score r'
  | _, _ => False
  end.
Proof.
  intros. pose proof (overall_score_monotone a h d a' h' d') as M.
  unfold overall_score in M.
  destruct (compute_overall_risk_total_0_5 a h d) as [r E]; try lia.
  destruct (compute_overall_risk_total_0_5 a' h' d') as [r' E']; try lia.
  rewrite E, E' in *. apply M; lia.
Qed.

(** X3: on component scores in [0, 5], the range the engine produces,
    raising any of the asthma, heat or dehydration scores never lowers the
    overall score of [compute_overall_risk]. *)
Theorem compute_overall_risk_monotone :
  forall a h d a' h' d' : Z,
  0 <= a -> a <= a' -> a' <= 5 -> 0 <= h -> h <= h' -> h' <= 5 ->
  0 <= d -> d <= d' -> d' <= 5 ->
  match compute_overall_risk a h d, compute_overall_risk a' h' d' with
  | inl r, inl r' => score r <= score r'
  | _, _ => False
  end.
Proof. exact compute_overall_risk_monotone_0_5. Qed.

Lemma compute_overall_risk_monotone_witness :
  (0 <= 1 /\ 1 <= 2 /\ 2 <= 5 /\ 0 <= 3 /\ 3 <= 3 /\ 3 <= 5 /\ 0 <= 0 /\ 0 <= 4 /\ 4 <= 5) /\
  match compute_overall_risk 1 3 0, compute_overall_risk 2 3 4 with
  | inl r, inl r' => score r <= score r'
  | _, _ => False
  end.
Proof.
  split; [lia|]. apply compute_overall_risk_monotone; lia.
Defined.

(** ** [combine_scores] *)

Lemma compute_overall_risk_score_range (a h d : Z) (r : RiskScore) :
  compute_overall_risk a h d = inl r -> 1 <= score r <= 4.
Proof.
  unfold compute_overall_risk, bind, ret.
  destruct (float_of_int a); [|discriminate].
  destruct (float_of_int h); [|discriminate].
  destruct (float_of_int d); [|discriminate].
  destruct (py_round _); [|discriminate].
  intros H. injection H as <-. cbn [score]. lia.
Qed.

Lemma compute_dehydration_risk_age_le temp hum hi (age : option Z) :
  score (compute_dehydration_risk temp hum hi None)
  <= score (compute_dehydration_risk temp hum hi age).
Proof.
  destruct age as [a|]; [|lia].
  unfold compute_dehydration_risk. cbv zeta. cbn [score].
  destruct (27 <=? hi)%float, (32 <=? hi)%float, (38 <=? hi)%float,
    (70 <=? hum)%float, (65 <=? a); cbn; lia.
Qed.

Lemma combine_scores_monotone_scores (air heat air' heat' : Z) temp hum hi profile :
  0 <= air -> air <= air' -> air' <= 5 -> 0 <= heat -> heat <= heat' -> heat' <= 5 ->
  match combine_scores air heat temp hum hi profile,
        combine_scores air' heat' temp hum hi profile with
  | inl s, inl s' =>
      score (asthma_risk s) <= score (asthma_risk s') /\
      score (heat_risk s) <= score (heat_risk s') /\
      score (dehydration_risk s) <= score (dehydration_risk s') /\
      score (overall_risk s) <= score (overall_risk s')
  | _, _ => False
  end.
Proof.
  intros. rewrite !combine_scores_unfolded. cbv zeta.
  pose proof (compute_dehydration_risk_score_range temp hum hi (profile_age profile)) as Hd.
  set (dr := compute_dehydration_risk temp hum hi (profile_age profile)) in *.
  destruct (at_risk_spec profile).
  - pose proof (compute_overall_risk_monotone_0_5 (Z.min 5 (air + 1)) (Z.min 5 (heat + 1))
      (score dr) (Z.min 5 (air' + 1)) (Z.min 5 (heat' + 1)) (score dr)) as M.
    unfold bind.
    destruct (compute_overall_risk (Z.min 5 (air + 1)) (Z.min 5 (heat + 1)) (score dr)),
      (compute_overall_risk (Z.min 5 (air' + 1)) (Z.min 5 (heat' + 1)) (score dr)); cbn [ret score asthma_risk heat_risk dehydration_risk overall_risk];
      (split; [lia | split; [lia | split; [lia | apply M; lia]]]) || (exfalso; apply M; lia).
  - pose proof (compute_overall_risk_monotone_0_5 air heat (score dr) air' heat' (score dr)) as M.
    unfold bind.
    destruct (compute_overall_risk air heat (score dr)), (compute_overall_risk air' heat' (score dr));
      cbn [ret score asthma_risk heat_risk dehydration_risk overall_risk]; (split; [lia | split; [lia | split; [lia | apply M; lia]]]) || (exfalso; apply M; lia).
Qed.

(** X4: for air and heat scores in [0, 5], [combine_scores] is monotone:
    raising the air score or the heat score never lowers any of the four
    returned scores (asthma, heat, dehydration, overall), and it never
    raises on such inputs. *)
Theorem combine_scores_monotone :
  forall (air heat air' heat' : Z) temp hum hi profile,
  0 <= air -> air <= air' -> air' <= 5 -> 0 <= heat -> heat <= heat' -> heat' <= 5 ->
  match combine_scores air heat temp hum hi profile,
        combine_scores air' heat' temp hum hi profile with
  | inl s, inl s' =>
      score (asthma_risk s) <= score (asthma_risk s') /\
      score (heat_risk s) <= score (heat_risk s') /\
      score (dehydration_risk s) <= score (dehydration_risk s') /\
      score (overall_risk s) <= score (overall_risk s')
  | _, _ => False
  end.
Proof. exact combine_scores_monotone_scores. Qed.

Lemma combine_scores_monotone_witness :
  (0 <= 1 /\ 1 <= 4 /\ 4 <= 5 /\ 0 <= 0 /\ 0 <= 3 /\ 3 <= 5) /\
  match combine_scores 1 0 30%float 80%float 35%float None,
        combine_scores 4 3 30%float 80%float 35%float None with
  | inl s, inl s' =>
      score (asthma_risk s) <= score (asthma_risk s') /\
      score (heat_risk s) <= score (heat_risk s') /\
      score (dehydration_risk s) <= score (dehydration_risk s') /\
      score (overall_risk s) <= score (overall_risk s')
  | _, _ => False
  end.
Proof. split; [lia|]. apply combine_scores_monotone; lia. Defined.

Lemma combine_scores_profile_le (air heat : Z) temp hum hi (p : Profile) :
  0 <= air <= 5 -> 0 <= heat <= 5 ->
  match combine_scores air heat temp hum hi None,
        combine_scores air heat temp hum hi (Some p) with
  | inl s0, inl s =>
      score (asthma_risk s0) <= score (asthma_risk s) /\
      score (heat_risk s0) <= score (heat_risk s) /\
      score (dehydration_risk s0) <= score (dehydration_risk s) /\
      score (overall_risk s0) <= score (overall_risk s)
  | _, _ => False
  end.
Proof.
  intros Ha Hh. rewrite !combine_scores_unfolded. cbv zeta.
  change (at_risk_spec None) with false. change (profile_age None) with (@None Z). cbv iota.
  pose proof (compute_dehydration_risk_age_le temp hum hi (profile_age (Some p))) as Dle.
  pose proof (compute_dehydration_risk_score_range temp hum hi None) as D0.
  pose proof (compute_dehydration_risk_score_range temp hum hi (profile_age (Some p))) as D1.
  set (d0 := compute_dehydration_risk temp hum hi None) in *.
  set (d1 := compute_dehydration_risk temp hum hi (profile_age (Some p))) in *.
  destruct (at_risk_spec (Some p)).
  - pose proof (compute_overall_risk_monotone_0_5 air heat (score d0)
      (Z.min 5 (air + 1)) (Z.min 5 (heat + 1)) (score d1)) as M.
    unfold bind.
    destruct (compute_overall_risk air heat (score d0)),
      (compute_overall_risk (Z.min 5 (air + 1)) (Z.min 5 (heat + 1)) (score d1)); cbn [ret score asthma_risk heat_risk dehydration_risk overall_risk];
      (split; [lia | split; [lia | split; [lia | apply M; lia]]]) || (exfalso; apply M; lia).
  - pose proof (compute_overall_risk_monotone_0_5 air heat (score d0) air heat (score d1)) as M.
    unfold bind. destruct (compute_overall_risk air heat (score d0)),
      (compute_overall_risk air heat (score d1));
      cbn [ret score asthma_risk heat_risk dehydration_risk overall_risk]; (split; [lia | split; [lia | split; [lia | apply M; lia]]]) || (exfalso; apply M; lia).
Qed.

(** X5: for air and heat scores in [0, 5], passing a profile to
    [combine_scores] never lowers any of the four scores compared with
    passing no profile: the at-risk bump only raises the asthma and heat
    scores, the age bump only raises the dehydration score, and the
    overall score follows. *)
Theorem combine_scores_profile_never_lowers :
  forall (air heat : Z) temp hum hi (p : Profile),
  0 <= air <= 5 -> 0 <= heat <= 5 ->
  match combine_scores air heat temp hum hi None,
        combine_scores air heat temp hum hi (Some p) with
  | inl s0, inl s =>
      score (asthma_risk s0) <= score (asthma_risk s) /\
      score (heat_risk s0) <= score (heat_risk s) /\
      score (dehydration_risk s0) <= score (dehydration_risk s) /\
      score (overall_risk s0) <= score (overall_risk s)
  | _, _ => False
  end.
Proof. exact combine_scores_profile_le. Qed.

Lemma combine_scores_profile_never_lowers_witness :
  (0 <= 2 <= 5 /\ 0 <= 3 <= 5) /\
  match combine_scores 2 3 35%float 75%float 33%float None,
        combine_scores 2 3 35%float 75%float 33%float
          (Some (mkProfile (Some 70) ["Asthma"%string])) with
  | inl s0, inl s =>
      score (asthma_risk s0) <= score (asthma_risk s) /\
      score (heat_risk s0) <= score (heat_risk s) /\
      score (dehydration_risk s0) <= score (dehydration_risk s) /\
      score (overall_risk s0) <= score (overall_risk s)
  | _, _ => False
  end.
Proof. split; [lia|]. apply combine_scores_profile_never_lowers; lia. Defined.

(** ** The [health_risk] endpoint *)

Lemma score_air_pollution_range (aqi : Z) (pm25 o3 : option float) :
  0 <= score_air_pollution aqi pm25 o3 <= 5.
Proof.
  unfold score_air_pollution, base_map, dict_get. cbv zeta.
  destruct pm25, o3;
    repeat match goal with |- context [if ?b then _ else _] => destruct b end; lia.
Qed.

Lemma combine_scores_overall_range air heat temp hum hi profile s :
  combine_scores air heat temp hum hi profile = inl s -> 1 <= score (overall_risk s) <= 4.
Proof.
  rewrite combine_scores_unfolded. cbv zeta. unfold bind.
  destruct (compute_overall_risk _ _ _) as [o|] eqn:E; [|discriminate].
  intros H. injection H as <-. exact (compute_overall_risk_score_range _ _ _ _ E).
Qed.

Lemma health_risk_rating_agrees (s : Z) :
  1 <= s <= 4 ->
  health_risk_rating s = score_to_rating s /\
  In (health_risk_rating s) ["A"; "B"; "C"; "D"]%string.
Proof.
  intros H. assert (C : s = 1 \/ s = 2 \/ s = 3 \/ s = 4) by lia.
  destruct C as [-> | [-> | [-> | ->]]]; cbn; auto 6.
Qed.


(** ** The hourly forecast of [health_risk] *)

Lemma forecast_loop_shape {T} (fromtimestamp : Z -> M T) (air_score : Z)
    (profile : option Profile) (l : list HourlyEntry) :
  0 <= air_score <= 5 -> (forall dt, exists t, fromtimestamp dt = inl t) ->
  match forecast_loop fromtimestamp air_score profile l with
  | inl pts =>
      List.length pts = List.length (filter hourly_complete l) /\
      Forall (fun p => 1 <= overall_risk_score p <= 4) pts
  | inr _ => False
  end.
Proof.
  intros Ha Hf. induction l as [|h rest IH]; [split; [reflexivity | constructor]|].
  cbn [forecast_loop filter]. unfold hourly_complete.
  destruct h as [[t|] [hu|] [dt|]]; cbn [h_temp h_humidity h_dt]; try exact IH.
  destruct (compute_heat_index_c_total t hu) as [hi E]. rewrite E. cbn [bind].
  destruct (combine_scores_total air_score (score_heat hi) t hu hi profile Ha
              (score_heat_range hi)) as [s Es].
  rewrite Es. cbn [bind].
  destruct (Hf dt) as [tm Et]. rewrite Et. cbn [bind].
  destruct (forecast_loop fromtimestamp air_score profile rest) as [pts|e]; [|contradiction].
  destruct IH as [L F]. cbn [bind ret List.length]. split; [rewrite L; reflexivity|].
  constructor; [|exact F].
  exact (combine_scores_overall_range _ _ _ _ _ _ _ Es).
Qed.



(** ** [_strip_code_fences] *)

Section StripFences.

Local Open Scope string_scope.

Lemma str_app_assoc (x y z : string) : (x ++ y) ++ z = x ++ (y ++ z).
Proof. induction x as [|c x IH]; cbn; [reflexivity | now rewrite IH]. Qed.

Lemma str_app_nil_r (x : string) : x ++ EmptyString = x.
Proof. induction x as [|c x IH]; cbn; [reflexivity | now rewrite IH]. Qed.

Lemma lstrip_idem (s : string) : lstrip (lstrip s) = lstrip s.
Proof.
  induction s as [|c s IH]; cbn; [reflexivity|].
  destruct (is_space c) eqn:E; [exact IH | cbn; now rewrite E].
Qed.

Lemma rstrip_idem (s : string) : rstrip (rstrip s) = rstrip s.
Proof.
  induction s as [|c s IH]; cbn; [reflexivity|].
  destruct (is_space c && String.eqb (rstrip s) EmptyString) eqn:E; [reflexivity|].
  cbn. rewrite IH, E. reflexivity.
Qed.

Lemma lstrip_head (s : string) :
  lstrip s = EmptyString \/ exists c r, lstrip s = String c r /\ is_space c = false.
Proof.
  induction s as [|c s IH]; cbn; [now left|].
  destruct (is_space c) eqn:E; [exact IH | right; eauto].
Qed.

Lemma lstrip_rstrip_lstrip (s : string) : lstrip (rstrip (lstrip s)) = rstrip (lstrip s).
Proof.
  destruct (lstrip_head s) as [-> | (c & r & -> & E)]; [reflexivity|].
  cbn. rewrite E. cbn. rewrite E. reflexivity.
Qed.

(** [str.strip] is idempotent. *)
Lemma str_strip_idem (s : string) : str_strip (str_strip s) = str_strip s.
Proof.
  unfold str_strip. rewrite lstrip_rstrip_lstrip. apply rstrip_idem.
Qed.

(** X8: the text [_strip_code_fences] returns is already stripped:
    [str.strip] leaves it unchanged, fenced or not. *)
Theorem strip_code_fences_stripped (text : string) :
  str_strip (_strip_code_fences text) = _strip_code_fences text.
Proof.
  unfold _strip_code_fences.
  destruct (String.eqb text EmptyString); [reflexivity|].
  destruct (prefix fence (str_strip text)); apply str_strip_idem.
Qed.

Lemma str_app_nonempty (x z : string) : z <> EmptyString -> String.eqb (x ++ z) EmptyString = false.
Proof.
  intros Hz. destruct x; cbn; [|reflexivity].
  destruct z; [contradiction | reflexivity].
Qed.

Lemma rstrip_app (x y : string) :
  rstrip y <> EmptyString -> rstrip (x ++ y) = x ++ rstrip y.
Proof.
  intros Hy. induction x as [|c x IH]; cbn; [reflexivity|].
  rewrite IH, (str_app_nonempty x _ Hy), andb_false_r. reflexivity.
Qed.

Lemma splitlines_nobreak (l x r : string) :
  no_linebreak x = true ->
  splitlines_from (Some l) (x ++ newline ++ r) = (l ++ x) :: splitlines_from None r.
Proof.
  revert l. induction x as [|c x IH]; intros l H.
  - cbn. now rewrite str_app_nil_r.
  - cbn in H. apply andb_prop in H as [Hc H].
    apply negb_true_iff in Hc. cbn [append splitlines_from]. rewrite Hc.
    rewrite (IH _ H), str_app_assoc. reflexivity.
Qed.

Lemma splitlines_none_some (s : string) :
  s <> EmptyString -> splitlines_from None s = splitlines_from (Some EmptyString) s.
Proof. destruct s; [contradiction | reflexivity]. Qed.

Lemma str_join_cons (sep x : string) (ls : list string) :
  ls <> [] -> str_join sep (x :: ls) = x ++ sep ++ str_join sep ls.
Proof. destruct ls; [contradiction | reflexivity]. Qed.

Lemma splitlines_body (l b r : string) :
  only_newline_breaks b = true ->
  exists ls, ls <> [] /\
    splitlines_from (Some l) (b ++ newline ++ r) = (ls ++ splitlines_from None r)%list /\
    str_join newline ls = l ++ b.
Proof.
  revert l. induction b as [|c b IH]; intros l H.
  - exists [l]. split; [discriminate|]. cbn. now rewrite str_app_nil_r.
  - cbn in H. apply andb_prop in H as [Hc H].
    destruct (IH EmptyString H) as (ls0 & Hne0 & Hs0 & Hj0).
    destruct (IH (l ++ String c EmptyString) H) as (ls1 & Hne1 & Hs1 & Hj1).
    destruct (is_linebreak c) eqn:Eb.
    + cbn in Hc. apply Ascii.eqb_eq in Hc as ->.
      exists (l :: ls0). split; [discriminate|]. split.
      * cbn [append splitlines_from]. cbn [is_linebreak nat_of_ascii].
        change (Ascii.eqb "010" "013") with false. cbv iota.
        rewrite splitlines_none_some by (destruct b; discriminate).
        rewrite Hs0. reflexivity.
      * rewrite str_join_cons by exact Hne0. rewrite Hj0. reflexivity.
    + exists ls1. split; [exact Hne1|]. split.
      * cbn [append splitlines_from]. rewrite Eb. exact Hs1.
      * rewrite Hj1, str_app_assoc. reflexivity.
Qed.

Lemma prefix_fence (s : string) : prefix fence (fence ++ s) = true.
Proof.
  unfold fence. cbn. destruct s; reflexivity.
Qed.

(** X9: a reply made of an opening fence line (three backticks followed by
    a tag such as [json], without line breaks), a body and a closing fence
    line comes back from [_strip_code_fences] as exactly the body, provided
    the body is already stripped and its only line breaks are "\n". *)
Theorem strip_code_fences_fenced (tag body : string) :
  no_linebreak tag = true -> only_newline_breaks body = true -> str_strip body = body ->
  _strip_code_fences (fence ++ tag ++ newline ++ body ++ newline ++ fence) = body.
Proof.
  intros Ht Hb Hs.
  set (text := fence ++ tag ++ newline ++ body ++ newline ++ fence).
  assert (St : str_strip text = text).
  { unfold str_strip.
    assert (L : lstrip text = text) by reflexivity. rewrite L.
    assert (A : text = (fence ++ tag ++ newline ++ body ++ newline) ++ fence).
    { unfold text. rewrite !str_app_assoc. reflexivity. }
    rewrite A, rstrip_app by discriminate. reflexivity. }
  unfold _strip_code_fences. rewrite St.
  assert (Ne : String.eqb text EmptyString = false) by reflexivity. rewrite Ne.
  assert (Pt : prefix fence text = true) by apply prefix_fence. rewrite Pt.
  destruct (splitlines_body EmptyString body fence Hb) as (ls & Hne & Hsp & Hj).
  assert (Sp : splitlines text = (fence ++ tag) :: (ls ++ [fence])%list).
  { unfold splitlines, text.
    assert (F : forall s, splitlines_from None (fence ++ s) = splitlines_from (Some fence) s)
      by reflexivity.
    rewrite F, (splitlines_nobreak fence tag (body ++ newline ++ fence) Ht).
    rewrite splitlines_none_some by (destruct body; unfold newline; cbn; congruence).
    rewrite Hsp. reflexivity. }
  rewrite Sp. cbv zeta. rewrite prefix_fence.
  destruct (ls ++ [fence])%list as [|x xs] eqn:E; [destruct ls; discriminate|].
  rewrite <- E, last_last, removelast_last.
  assert (Pf : prefix fence fence = true) by exact (prefix_fence EmptyString).
  rewrite Pf. rewrite Hj. exact Hs.
Qed.

Lemma strip_code_fences_fenced_witness :
  (no_linebreak "json" = true /\ only_newline_breaks "{}" = true /\ str_strip "{}" = "{}") /\
  _strip_code_fences (fence ++ "json" ++ newline ++ "{}" ++ newline ++ fence) = "{}".
Proof.
  assert (H1 : no_linebreak "json" = true) by reflexivity.
  assert (H2 : only_newline_breaks "{}" = true) by reflexivity.
  assert (H3 : str_strip "{}" = "{}") by reflexivity.
  split; [split; [exact H1 | split; [exact H2 | exact H3]]|].
  exact (strip_code_fences_fenced "json" "{}" H1 H2 H3).
Defined.

End StripFences.
